(** * Pension / LISA / ISA retirement calculator: the arithmetic core

    A shallow embedding of [pensionlisaisa.py].  The script is a straight-line
    program over a handful of user inputs; every global it computes becomes a
    function of those inputs here, under the name it has in the script.

    Numbers.  Python [float] values are idealised as real numbers: every
    arithmetic operation is exact.  Python [int] inputs are [Z] and enter the
    arithmetic through [IZR].  The IEEE special values that numpy produces
    without raising (infinities and NaN) are kept, because the script tests
    for them ([np.isnan]); see [float64]. *)

From Stdlib Require Import Reals Lra Lia ZArith List Bool.
Import ListNotations.
Open Scope R_scope.

(** ** Values of numpy arithmetic *)

(** What a numpy [float64] computation can deliver: a finite number, one of
    the two infinities, or NaN.  The sign of zero is not tracked; a zero
    divisor is taken to be [+0.0], which is what exact cancellation [x + (-x)]
    yields under round-to-nearest. *)
Inductive float64 : Type :=
| Fin (x : R)
| PInf
| NInf
| NaN.

Module np.

(** [np.isnan] *)
Definition isnan (v : float64) : bool :=
  match v with NaN => true | _ => false end.

(** Elementwise [/] of numpy: division by zero gives a signed infinity, and
    [0/0], [inf/inf] give NaN; nothing is raised.  The infinity has the sign
    of the dividend, as for the divisor [+0.0]; where numpy's divisor is
    [-0.0] (in [pmt], when [(1 + rate) ** nper] is 1 and the rate is
    negative) the infinity of numpy has the opposite sign. *)
Definition divide (a b : float64) : float64 :=
  match a, b with
  | NaN, _ | _, NaN => NaN
  | Fin x, Fin y =>
      if Req_dec_T y 0 then
        if Req_dec_T x 0 then NaN
        else if Rlt_dec 0 x then PInf else NInf
      else Fin (x / y)
  | Fin _, (PInf | NInf) => Fin 0
  | PInf, Fin y => if Rlt_dec y 0 then NInf else PInf
  | NInf, Fin y => if Rlt_dec y 0 then PInf else NInf
  | (PInf | NInf), (PInf | NInf) => NaN
  end.

(** [np.log]: NaN on negative numbers, [-inf] at zero. *)
Definition log (a : float64) : float64 :=
  match a with
  | Fin x =>
      if Rlt_dec 0 x then Fin (ln x)
      else if Req_dec_T x 0 then NInf else NaN
  | PInf => PInf
  | NInf => NaN
  | NaN => NaN
  end.

(** [abs] on an array. *)
Definition abs (a : float64) : float64 :=
  match a with
  | Fin x => Fin (Rabs x)
  | PInf | NInf => PInf
  | NaN => NaN
  end.

(** Unary minus on an array. *)
Definition negative (a : float64) : float64 :=
  match a with
  | Fin x => Fin (- x)
  | PInf => NInf
  | NInf => PInf
  | NaN => NaN
  end.

(** [np.arange(n) + 1]: the integers [1 .. n], empty when [n <= 0]. *)
Definition arange1 (n : Z) : list Z :=
  map (fun k => (Z.of_nat k + 1)%Z) (seq 0 (Z.to_nat n)).

End np.

(** ** The numpy_financial primitives used by the script

    Transcribed from numpy_financial 1.0.0 ([fv], [nper], [pmt]) with the
    default [when='end'].  The script only passes integer period counts to
    [fv] and [pmt], all of them non-negative, so the power is [powerRZ]. *)
Module npf.

(** [when='end'] is converted to 0. *)
Definition when_end : R := 0.

Definition fv (rate : R) (nper : Z) (pmt pv : R) : R :=
  if Req_dec_T rate 0 then - (pv + pmt * IZR nper)
  else
    let temp := powerRZ (1 + rate) nper in
    - pv * temp - pmt * (1 + rate * when_end) / rate * (temp - 1).

(** [fv] at a period count that is a float, as [nper] returns it.  The power
    is [Rpower], which is numpy's float power whenever the base [1 + rate]
    is positive. *)
Definition fv_float (rate : R) (nper : R) (pmt pv : R) : R :=
  if Req_dec_T rate 0 then - (pv + pmt * nper)
  else
    let temp := Rpower (1 + rate) nper in
    - pv * temp - pmt * (1 + rate * when_end) / rate * (temp - 1).

(** [nper] first computes [z = pmt * (1 + rate * when) / rate] with division
    by zero raising; when that is raised (the rate is 0 and the dividend is
    not) it returns [(-fv + pv) / pmt].  Otherwise it returns
    [np.where(rate == 0, A, B)] with [A = -(fv + pv) / (pmt + 0)] and [B] the
    quotient of logarithms; the rate can then be 0 only with a zero dividend,
    where [0/0] raises nothing. *)
Definition nper (rate pmt pv fv : R) : float64 :=
  if Req_dec_T rate 0 then
    if Req_dec_T (pmt * (1 + rate * when_end)) 0 then
      np.divide (Fin (- (fv + pv))) (Fin (pmt + 0))
    else np.divide (Fin (- fv + pv)) (Fin pmt)
  else
    let z := pmt * (1 + rate * when_end) / rate in
    np.divide (np.log (np.divide (Fin (- fv + z)) (Fin (pv + z))))
              (np.log (Fin (1 + rate))).

Definition pmt (rate : R) (nper : Z) (pv fv : R) : float64 :=
  let temp := powerRZ (1 + rate) nper in
  let masked_rate := if Req_dec_T rate 0 then 1 else rate in
  let fact :=
    if Req_dec_T rate 0 then IZR nper
    else (1 + masked_rate * when_end) * (temp - 1) / masked_rate in
  np.divide (Fin (- (fv + pv * temp))) (Fin fact).

End npf.

(** ** Domain constants and enumerations *)

Definition brt_tax_rate : R := 0.2.
Definition hrt_tax_rate : R := 0.4.
Definition brt_ni_rate : R := 0.08.
Definition hrt_ni_rate : R := 0.02.

(** [tax_bands = ['BRT', 'HRT']] *)
Inductive TaxBand : Type := BRT | HRT.

(** The answers of the salary-sacrifice radio button. *)
Inductive YesNo : Type := Yes | No.

(** [retirement_vehicles = ['pension','LISA','ISA']] *)
Inductive Vehicle : Type := pension | LISA | ISA.

Definition retirement_vehicles : list Vehicle := [pension; LISA; ISA].

(** Position of a vehicle in every three-element array of the script. *)
Definition idx (v : Vehicle) : nat :=
  match v with pension => 0 | LISA => 1 | ISA => 2 end%nat.

Definition TaxBand_eqb (a b : TaxBand) : bool :=
  match a, b with BRT, BRT | HRT, HRT => true | _, _ => false end.

Definition YesNo_eqb (a b : YesNo) : bool :=
  match a, b with Yes, Yes | No, No => true | _, _ => false end.

(** ** The rules as the specification words them *)

Definition spec_taxRate (b : TaxBand) : R :=
  match b with BRT => 0.20 | HRT => 0.40 end.

Definition spec_niRate (b : TaxBand) : R :=
  match b with BRT => 0.08 | HRT => 0.02 end.

Definition spec_gross_contribution
  (v : Vehicle) (band : TaxBand) (sacrifice : YesNo) (net : R) : R :=
  match v, sacrifice with
  | pension, Yes => net / (1 - spec_taxRate band - spec_niRate band)
  | pension, No => net / (1 - spec_taxRate band)
  | LISA, _ => net * 1.25
  | ISA, _ => net
  end.

Definition spec_gross_withdrawal (v : Vehicle) (band : TaxBand) (net : R) : R :=
  match v with
  | pension => net / (1 - 0.75 * spec_taxRate band)
  | LISA | ISA => net
  end.

(** ** Data frames *)

(** One row of the schedule frames, with the columns the script creates. *)
Record Row : Type := {
  Month : Z;
  Growth : R;
  Net_take_home : R;
  Pension_deposit : R;
  LISA_deposit : R;
  ISA_deposit : R;
  Pension_fund : R;
  LISA_fund : R;
  ISA_fund : R
}.

(** The deposit and fund column of a vehicle. *)
Definition deposit_of (v : Vehicle) (r : Row) : R :=
  match v with
  | pension => Pension_deposit r
  | LISA => LISA_deposit r
  | ISA => ISA_deposit r
  end.

Definition fund_of (v : Vehicle) (r : Row) : R :=
  match v with
  | pension => Pension_fund r
  | LISA => LISA_fund r
  | ISA => ISA_fund r
  end.

(** A row as the script fills it: the six base columns from the frame
    constructor, then each fund column as
    [-npf.fv(rate, nper, <deposit column>, pv)]. *)
Definition mk_row (month : Z) (growth net dp dl di : R)
           (rate : R) (nper : Z) (pv_p pv_l pv_i : R) : Row :=
  {| Month := month;
     Growth := growth;
     Net_take_home := net;
     Pension_deposit := dp;
     LISA_deposit := dl;
     ISA_deposit := di;
     Pension_fund := - npf.fv rate nper dp pv_p;
     LISA_fund := - npf.fv rate nper dl pv_l;
     ISA_fund := - npf.fv rate nper di pv_i |}.

(** [df.loc[:k]] on a frame with the default index [0, 1, ...]: label slicing
    includes the end label. *)
Definition loc_upto {A : Type} (k : Z) (df : list A) : list A :=
  firstn (Z.to_nat (k + 1)) df.

(** How a duration is written out: "Forever" when [np.isnan] holds. *)
Inductive DurationText : Type :=
| Forever
| YearsAndMonths (d : float64).

Definition duration_text (d : float64) : DurationText :=
  if np.isnan d then Forever else YearsAndMonths d.

(** ** The script *)

Section Calculator.

(** The user inputs, with the types the widgets deliver.  [include_lisa] only
    selects which lines and columns are displayed; no computed value depends
    on it. *)
Variable include_lisa : bool.
Variable monthly_deposit : Z.
Variable salary_sacrifice : YesNo.
Variable current_tax : TaxBand.
Variable retirement_tax : TaxBand.
Variable retirement_age : Z.
Variable growth_rate : R.
Variable retirement_monthly_withdrawal : Z.
Variable retirement_growth_rate : R.
Variable retirement_duration : Z.

Definition pension_monthly_net_deposit : R :=
  if TaxBand_eqb current_tax BRT && YesNo_eqb salary_sacrifice Yes then
    IZR monthly_deposit / (1 - brt_tax_rate - brt_ni_rate)
  else if TaxBand_eqb current_tax BRT && YesNo_eqb salary_sacrifice No then
    IZR monthly_deposit / (1 - brt_tax_rate)
  else if TaxBand_eqb current_tax HRT && YesNo_eqb salary_sacrifice Yes then
    IZR monthly_deposit / (1 - hrt_tax_rate - hrt_ni_rate)
  else
    IZR monthly_deposit / (1 - hrt_tax_rate).

Definition lisa_monthly_deposit : R := IZR monthly_deposit * 1.25.

(** The array [[pension_monthly_net_deposit, lisa_monthly_deposit,
    monthly_deposit]] that the script passes to [npf.fv]. *)
Definition monthly_deposits : list R :=
  [pension_monthly_net_deposit; lisa_monthly_deposit; IZR monthly_deposit].

Definition retirement_fvs : list R :=
  map (fun d => - npf.fv (growth_rate / 100 / 12) (retirement_age * 12) d 0)
      monthly_deposits.

Definition pension_monthly_net_withdrawal : R :=
  if TaxBand_eqb retirement_tax BRT then
    IZR retirement_monthly_withdrawal / (1 - 0.75 * brt_tax_rate)
  else
    IZR retirement_monthly_withdrawal / (1 - 0.75 * hrt_tax_rate).

(** The array [[-pension_monthly_net_withdrawal,
    -retirement_monthly_withdrawal, -retirement_monthly_withdrawal]]. *)
Definition monthly_withdrawals : list R :=
  [- pension_monthly_net_withdrawal;
   - IZR retirement_monthly_withdrawal;
   - IZR retirement_monthly_withdrawal].

(** [abs(npf.nper(rate, withdrawals, retirement_fvs))], elementwise.  Where
    the monthly yield of a fund equals the withdrawal exactly, the value here
    rests on an exact cancellation that the float computation need not
    reproduce; no property below is stated at that boundary. *)
Definition withdrawal_durations (pvs : list R) : list float64 :=
  map (fun '(w, pv) =>
         np.abs (npf.nper (retirement_growth_rate / 100 / 12) w pv 0))
      (combine monthly_withdrawals pvs).

Definition retirement_withdrawal_durations : list float64 :=
  withdrawal_durations retirement_fvs.

(** The amount a pension payment leaves after tax: a quarter is tax free,
    the rest is taxed at the retirement band's rate. *)
Definition pension_after_tax (x : float64) : float64 :=
  let keep :=
    if TaxBand_eqb retirement_tax BRT then 1 - brt_tax_rate
    else 1 - hrt_tax_rate in
  match x with
  | Fin p => Fin (p * 0.25 + p * 0.75 * keep)
  | other => other
  end.

(** [-npf.pmt(rate, retirement_duration * 12, pvs)] followed by the
    assignment to element 0. *)
Definition withdrawal_pmt (pvs : list R) : list float64 :=
  match
    map (fun pv =>
           np.negative
             (npf.pmt (retirement_growth_rate / 100 / 12)
                      (retirement_duration * 12) pv 0)) pvs
  with
  | [] => []
  | p0 :: rest => pension_after_tax p0 :: rest
  end.

Definition retirement_withdrawal_pmt : list float64 :=
  withdrawal_pmt retirement_fvs.

(** *** The schedules *)

Definition accumulation_months : list Z := np.arange1 (retirement_age * 12).

Definition accumulation_df : list Row :=
  map (fun m =>
         mk_row m growth_rate (- IZR monthly_deposit)
                pension_monthly_net_deposit lisa_monthly_deposit
                (IZR monthly_deposit)
                (growth_rate / 100 / 12) m 0 0 0)
      accumulation_months.

Definition drawdown_months : list Z := np.arange1 (retirement_duration * 12).

(** A drawdown frame starting from the fund values [pvs]; the script builds
    two of them, [drawdown_df] and [drawdown_10_years_less_df]. *)
Definition drawdown_frame (pvs : list R) : list Row :=
  map (fun month =>
         mk_row month retirement_growth_rate
                (IZR retirement_monthly_withdrawal)
                (- pension_monthly_net_withdrawal)
                (- IZR retirement_monthly_withdrawal)
                (- IZR retirement_monthly_withdrawal)
                (retirement_growth_rate / 100 / 12)
                (month - retirement_age * 12)
                (nth 0 pvs 0) (nth 1 pvs 0) (nth 2 pvs 0))
      (map (fun m => (m + retirement_age * 12)%Z) drawdown_months).

Definition drawdown_df : list Row := drawdown_frame retirement_fvs.

(** [pd.concat([accumulation_df, drawdown_df])].  When LISAs are excluded the
    script drops the two LISA columns before display; the rows are the
    same. *)
Definition schedule_df : list Row := accumulation_df ++ drawdown_df.

(** *** Deposits stopping ten years before retirement

    The body of the [if show_detailed_lisa:] block.  The toggle is off by
    default and nothing below is computed then; these definitions say what
    the block computes once it is requested. *)

Definition retirement_fvs_10_years_less : list R :=
  map (fun d =>
         - npf.fv (growth_rate / 100 / 12) ((retirement_age - 10) * 12) d 0)
      monthly_deposits.

Definition retirement_fvs_10_years_less_at_age : list R :=
  map (fun pv => - npf.fv (growth_rate / 100 / 12) (10 * 12) 0 pv)
      retirement_fvs_10_years_less.

Definition retirement_withdrawal_durations_10_years_less : list float64 :=
  withdrawal_durations retirement_fvs_10_years_less_at_age.

Definition retirement_withdrawal_pmt_10_years_less : list float64 :=
  withdrawal_pmt retirement_fvs_10_years_less_at_age.

Definition accumulation_10_years_less_df : list Row :=
  loc_upto (retirement_age * 12 - 121) accumulation_df.

Definition accumulation_10_years_growth_df : list Row :=
  map (fun month =>
         mk_row month growth_rate 0 0 0 0
                (growth_rate / 100 / 12)
                (month - (retirement_age * 12 - 120))
                (nth 0 retirement_fvs_10_years_less 0)
                (nth 1 retirement_fvs_10_years_less 0)
                (nth 2 retirement_fvs_10_years_less 0))
      (map (fun k => (Z.of_nat k + retirement_age * 12 - 119)%Z) (seq 0 120)).

Definition drawdown_10_years_less_df : list Row :=
  drawdown_frame retirement_fvs_10_years_less_at_age.

(** The schedule of the block: [None] when the script takes the
    [retirement_age <= 10] branch, which only writes that the impact cannot
    be shown. *)
Definition schedule_10_years_less_df : option (list Row) :=
  if (retirement_age <=? 10)%Z then None
  else Some (accumulation_10_years_less_df
               ++ accumulation_10_years_growth_df
               ++ drawdown_10_years_less_df).

End Calculator.

(** ** Warnings, explanations and the per-vehicle tables *)

(** [//] and [%] of numpy on finite floats: floor division, and the remainder
    that takes the sign of the divisor. *)
Definition floor_divide (x y : R) : R := IZR (Int_part (x / y)).

Definition remainder (x y : R) : R := x - y * IZR (Int_part (x / y)).

(** The digits [{:.0f}] writes for a finite float: the nearest integer, a tie
    going to the even one. *)
Definition format_0f (x : R) : Z :=
  let n := Int_part x in
  let f := frac_part x in
  if Rlt_dec f (1 / 2) then n
  else if Rlt_dec (1 / 2) f then (n + 1)%Z
  else if Z.even n then n else (n + 1)%Z.

(** The figures in "... years and ... months", for a finite duration [d].
    A value exactly half way between two whole numbers is decided here on the
    exact value; the float computation may land just beside it, so no
    property below is stated at such a tie. *)
Definition duration_years (d : R) : Z := format_0f (floor_divide d 12).

Definition duration_months (d : R) : Z :=
  format_0f (remainder (d / 12) 1 * 12).

(** The years figure in the block for deposits stopping ten years early,
    which writes [i / 12] where the first list writes [... // 12]. *)
Definition duration_years_10_years_less (d : R) : Z := format_0f (d / 12).

(** [list.insert(i, x)] *)
Definition insert_at {A : Type} (i : nat) (x : A) (l : list A) : list A :=
  firstn i l ++ x :: skipn i l.

(** Columns of the pension table. *)
Inductive PensionColumn : Type :=
| col_Month
| col_Net_take_home
| col_Tax_relief
| col_NI_relief
| col_Pension_deposit
| col_Pension_fund
| col_Pension_fund_month_returns.

(** A row of [pension_schedule_df]. *)
Record PensionRow : Type := {
  P_Month : Z;
  P_Net_take_home : R;
  P_Pension_deposit : R;
  P_Pension_fund : R;
  P_Growth : R;
  Tax_relief : R;
  NI_relief : R;
  Pension_fund_month_returns : R
}.

(** A row of [lisa_schedule_df]. *)
Record LisaRow : Type := {
  L_Month : Z;
  L_Net_take_home : R;
  LISA_bonus : R;
  L_LISA_deposit : R;
  L_LISA_fund : R;
  L_Growth : R
}.

(** The figures of the sentence that splits a pension withdrawal. *)
Record WithdrawalSplit : Type := {
  withdrawn : R;
  tax_free : R;
  taxable : R;
  tax_taken : R;
  after_tax : R;
  net_take_home : R
}.

(** The figures of the sentence that explains salary sacrifice. *)
Record SacrificeSplit : Type := {
  gross_pay : R;
  income_tax : R;
  national_insurance : R;
  net_income : R
}.

(** [<fund column> * Growth / 100 / 12], the "month returns" column of a
    vehicle. *)
Definition fund_month_returns (v : Vehicle) (r : Row) : R :=
  fund_of v r * Growth r / 100 / 12.

Section Presentation.

Variable include_lisa : bool.
Variable monthly_deposit : Z.
Variable salary_sacrifice : YesNo.
Variable current_tax : TaxBand.
Variable retirement_tax : TaxBand.
Variable retirement_age : Z.
Variable growth_rate : R.
Variable retirement_monthly_withdrawal : Z.
Variable retirement_growth_rate : R.
Variable retirement_duration : Z.

(** [monthly_deposit > 333.33 and include_lisa] *)
Definition lisa_limit_warning : bool :=
  (if Rlt_dec 333.33 (IZR monthly_deposit) then true else false)
  && include_lisa.

(** The amount the warning proposes for a second run of the calculator. *)
Definition lisa_limit_remaining : Z := monthly_deposit - 333.

(** [retirement_monthly_withdrawal < monthly_deposit] *)
Definition withdrawal_warning : bool :=
  (retirement_monthly_withdrawal <? monthly_deposit)%Z.

(** The rates in [current_tax_const] and [retirement_tax_const]; the band
    names they also carry are only written out. *)
Definition current_tax_const : R * R :=
  if TaxBand_eqb current_tax BRT then (brt_tax_rate, brt_ni_rate)
  else (hrt_tax_rate, hrt_ni_rate).

Definition retirement_tax_const : R :=
  if TaxBand_eqb retirement_tax BRT then brt_tax_rate else hrt_tax_rate.

(** The withdrawal sentence of [detailedexplanationsipp] and
    [detailedexplanationss]. *)
Definition withdrawal_split : WithdrawalSplit :=
  let pw :=
    pension_monthly_net_withdrawal retirement_tax
      retirement_monthly_withdrawal in
  {| withdrawn := pw;
     tax_free := pw * 0.25;
     taxable := pw * 0.75;
     tax_taken := pw * 0.75 * retirement_tax_const;
     after_tax := pw * 0.75 * (1 - retirement_tax_const);
     net_take_home := IZR retirement_monthly_withdrawal |}.

(** The gross-pay sentence of [detailedexplanationss]. *)
Definition sacrifice_split : SacrificeSplit :=
  let pd :=
    pension_monthly_net_deposit monthly_deposit salary_sacrifice current_tax in
  {| gross_pay := pd;
     income_tax := pd * fst current_tax_const;
     national_insurance := pd * snd current_tax_const;
     net_income := IZR monthly_deposit |}.

(** The two amounts of the higher-rate warning of [detailedexplanationsipp]:
    what is added automatically and what has to be reclaimed.  [None] when the
    warning is not written: [detailedexplanationsipp] is only called when the
    answer to the salary-sacrifice question is not 'Yes', and only warns a
    higher-rate payer. *)
Definition sipp_reclaim : option (R * R) :=
  if YesNo_eqb salary_sacrifice Yes then None
  else if TaxBand_eqb current_tax HRT then
    Some (IZR monthly_deposit * 0.25,
          pension_monthly_net_deposit monthly_deposit salary_sacrifice
            current_tax
          - IZR monthly_deposit - IZR monthly_deposit * 0.25)
  else None.

(** *** The pension table *)

Definition pension_accumulation_df : list PensionRow :=
  map (fun r =>
         {| P_Month := Month r;
            P_Net_take_home := Net_take_home r;
            P_Pension_deposit := Pension_deposit r;
            P_Pension_fund := Pension_fund r;
            P_Growth := Growth r;
            Tax_relief :=
              pension_monthly_net_deposit monthly_deposit salary_sacrifice
                current_tax * fst current_tax_const;
            NI_relief :=
              pension_monthly_net_deposit monthly_deposit salary_sacrifice
                current_tax * snd current_tax_const;
            Pension_fund_month_returns :=
              Growth r / 100 / 12 * Pension_fund r |})
      (accumulation_df monthly_deposit salary_sacrifice current_tax
         retirement_age growth_rate).

Definition pension_drawdown_df : list PensionRow :=
  map (fun r =>
         {| P_Month := Month r;
            P_Net_take_home := Net_take_home r;
            P_Pension_deposit := Pension_deposit r;
            P_Pension_fund := Pension_fund r;
            P_Growth := Growth r;
            Tax_relief :=
              - pension_monthly_net_withdrawal retirement_tax
                  retirement_monthly_withdrawal * 0.75 * retirement_tax_const;
            NI_relief := 0;
            Pension_fund_month_returns :=
              Growth r / 100 / 12 * Pension_fund r |})
      (drawdown_df monthly_deposit salary_sacrifice current_tax retirement_tax
         retirement_age growth_rate retirement_monthly_withdrawal
         retirement_growth_rate retirement_duration).

Definition pension_schedule_df : list PensionRow :=
  pension_accumulation_df ++ pension_drawdown_df.

(** The columns of the pension table that are displayed. *)
Definition pension_columns_to_show (show_pension_growth : bool)
  : list PensionColumn :=
  let base :=
    [col_Month; col_Net_take_home; col_Tax_relief; col_Pension_deposit;
     col_Pension_fund] in
  let with_ni :=
    if YesNo_eqb salary_sacrifice Yes then insert_at 3 col_NI_relief base
    else base in
  if show_pension_growth then with_ni ++ [col_Pension_fund_month_returns]
  else with_ni.

(** *** The LISA table *)

Definition lisa_schedule_df : list LisaRow :=
  map (fun r =>
         {| L_Month := Month r;
            L_Net_take_home := Net_take_home r;
            LISA_bonus := Net_take_home r * -0.25;
            L_LISA_deposit := LISA_deposit r;
            L_LISA_fund := LISA_fund r;
            L_Growth := Growth r |})
      (accumulation_df monthly_deposit salary_sacrifice current_tax
         retirement_age growth_rate)
  ++ map (fun r =>
            {| L_Month := Month r;
               L_Net_take_home := Net_take_home r;
               LISA_bonus := 0;
               L_LISA_deposit := LISA_deposit r;
               L_LISA_fund := LISA_fund r;
               L_Growth := Growth r |})
         (drawdown_df monthly_deposit salary_sacrifice current_tax
            retirement_tax retirement_age growth_rate
            retirement_monthly_withdrawal retirement_growth_rate
            retirement_duration).

End Presentation.

(** ** Vocabulary of the properties *)

(** [cur] continues [prev] for vehicle [v]: the balance of [cur] is the
    balance of [prev] compounded for one month at the growth rate of [cur],
    plus the deposit column of [cur] (a withdrawal is a negative deposit). *)
Definition follows (v : Vehicle) (prev cur : Row) : Prop :=
  fund_of v cur
  = fund_of v prev * (1 + Growth cur / 100 / 12) + deposit_of v cur.

(** Every row of a frame continues the row before it. *)
Definition chained (v : Vehicle) (rows : list Row) : Prop :=
  forall k prev cur,
    nth_error rows k = Some prev ->
    nth_error rows (S k) = Some cur ->
    follows v prev cur.

(** The rows of a frame are numbered 1, 2, 3, ... in their [Month] column,
    without gaps. *)
Definition numbered_from_one (rows : list Row) : Prop :=
  forall k r, nth_error rows k = Some r -> Month r = (Z.of_nat k + 1)%Z.

(** * Properties *)

(** ** Compounding *)

Lemma powerRZ_succ (x : R) (n : Z) :
  (0 <= n)%Z -> powerRZ x (n + 1) = powerRZ x n * x.
Proof.
  intros Hn.
  rewrite <- (Z2Nat.id n Hn).
  replace (Z.of_nat (Z.to_nat n) + 1)%Z with (Z.of_nat (S (Z.to_nat n)))
    by lia.
  rewrite <- !pow_powerRZ. simpl. ring.
Qed.

(** The balance before any period has elapsed is the present value. *)
Lemma balance_zero (rate pmt pv : R) : - npf.fv rate 0 pmt pv = pv.
Proof.
  unfold npf.fv, npf.when_end.
  destruct (Req_dec_T rate 0) as [E | NE]; simpl.
  - ring.
  - field. exact NE.
Qed.

(** One more period compounds the balance once and adds the payment at the
    end of the period. *)
Lemma balance_step (rate pmt pv : R) (n : Z) :
  (0 <= n)%Z ->
  - npf.fv rate (n + 1) pmt pv = (- npf.fv rate n pmt pv) * (1 + rate) + pmt.
Proof.
  intros Hn. unfold npf.fv, npf.when_end.
  destruct (Req_dec_T rate 0) as [E | NE].
  - subst rate. rewrite plus_IZR. ring.
  - rewrite (powerRZ_succ _ _ Hn). field. exact NE.
Qed.

Lemma balance_one (rate pmt pv : R) :
  - npf.fv rate 1 pmt pv = pv * (1 + rate) + pmt.
Proof.
  change 1%Z with (0 + 1)%Z.
  rewrite balance_step by lia. rewrite balance_zero. reflexivity.
Qed.

(** ** Frames as indexed families *)

Lemma nth_error_map_seq {A : Type} (g : nat -> A) (n k : nat) (a : A) :
  nth_error (map g (seq 0 n)) k = Some a -> (k < n)%nat /\ a = g k.
Proof.
  rewrite nth_error_map, nth_error_seq.
  destruct (Nat.ltb_spec k n) as [Hlt | Hge]; simpl; intros H.
  - injection H as <-. split; [exact Hlt | reflexivity].
  - discriminate H.
Qed.

Lemma Some_eq {A : Type} (a b : A) : Some a = Some b -> a = b.
Proof. congruence. Qed.

Lemma firstn_seq_min (n start len : nat) :
  firstn n (seq start len) = seq start (Nat.min n len).
Proof.
  revert start len.
  induction n as [| n IH]; intros start [| len]; simpl; try reflexivity.
  f_equal. apply IH.
Qed.

Lemma chained_map_seq (v : Vehicle) (g : nat -> Row) (n : nat) :
  (forall j, (S j < n)%nat -> follows v (g j) (g (S j))) ->
  chained v (map g (seq 0 n)).
Proof.
  intros Hg k prev cur Hp Hc.
  apply nth_error_map_seq in Hp as [_ ->].
  apply nth_error_map_seq in Hc as [Hlt ->].
  apply Hg. exact Hlt.
Qed.

Lemma chained_app (v : Vehicle) (l1 l2 : list Row) :
  chained v l1 -> chained v l2 ->
  (forall a b,
      nth_error l1 (pred (length l1)) = Some a ->
      nth_error l2 0 = Some b -> follows v a b) ->
  chained v (l1 ++ l2).
Proof.
  intros H1 H2 Hb k prev cur Hp Hc.
  destruct (Nat.lt_ge_cases (S k) (length l1)) as [Hin | Hout].
  - rewrite nth_error_app1 in Hp by lia.
    rewrite nth_error_app1 in Hc by lia.
    exact (H1 k prev cur Hp Hc).
  - destruct (Nat.eq_dec (S k) (length l1)) as [Heq | Hne].
    + rewrite nth_error_app1 in Hp by lia.
      rewrite nth_error_app2 in Hc by lia.
      replace (S k - length l1)%nat with 0%nat in Hc by lia.
      apply (Hb prev cur); [| exact Hc].
      rewrite <- Heq. exact Hp.
    + rewrite nth_error_app2 in Hp by lia.
      rewrite nth_error_app2 in Hc by lia.
      replace (S k - length l1)%nat with (S (k - length l1)) in Hc by lia.
      exact (H2 _ prev cur Hp Hc).
Qed.


(** ** Contribution and withdrawal normalisation *)

(** C1. For every net monthly deposit, tax band and salary-sacrifice answer,
    the three gross deposits of the script are the ones the rule table gives:
    pension [net / (1 - tax - ni)] with salary sacrifice and
    [net / (1 - tax)] without, LISA [net * 1.25] whatever the band, ISA [net],
    with (tax, ni) = (0.20, 0.08) for BRT and (0.40, 0.02) for HRT. *)
Theorem contribution_normalisation :
  forall (monthly_deposit : Z) (salary_sacrifice : YesNo)
         (current_tax : TaxBand) (v : Vehicle),
    nth (idx v) (monthly_deposits monthly_deposit salary_sacrifice current_tax) 0
    = spec_gross_contribution v current_tax salary_sacrifice
        (IZR monthly_deposit).
Proof.
  intros d ss band v.
  destruct v, band, ss; cbn;
    unfold brt_tax_rate, brt_ni_rate, hrt_tax_rate, hrt_ni_rate;
    try reflexivity; f_equal; lra.
Qed.

(** ** The schedules, row by row *)

Section ScheduleProperties.

Variable monthly_deposit : Z.
Variable salary_sacrifice : YesNo.
Variable current_tax : TaxBand.
Variable retirement_tax : TaxBand.
Variable retirement_age : Z.
Variable growth_rate : R.
Variable retirement_monthly_withdrawal : Z.
Variable retirement_growth_rate : R.
Variable retirement_duration : Z.

Local Abbreviation deposits :=
  (monthly_deposits monthly_deposit salary_sacrifice current_tax).
Local Abbreviation withdrawals :=
  (monthly_withdrawals retirement_tax retirement_monthly_withdrawal).
Local Abbreviation fvs :=
  (retirement_fvs monthly_deposit salary_sacrifice current_tax
     retirement_age growth_rate).
Local Abbreviation fvs_less :=
  (retirement_fvs_10_years_less monthly_deposit salary_sacrifice current_tax
     retirement_age growth_rate).
Local Abbreviation fvs_less_at_age :=
  (retirement_fvs_10_years_less_at_age monthly_deposit salary_sacrifice
     current_tax retirement_age growth_rate).
Local Abbreviation accumulation :=
  (accumulation_df monthly_deposit salary_sacrifice current_tax
     retirement_age growth_rate).
Local Abbreviation drawdown_from :=
  (drawdown_frame retirement_tax retirement_age
     retirement_monthly_withdrawal retirement_growth_rate
     retirement_duration).
Local Abbreviation drawdown :=
  (drawdown_df monthly_deposit salary_sacrifice current_tax retirement_tax
     retirement_age growth_rate retirement_monthly_withdrawal
     retirement_growth_rate retirement_duration).
Local Abbreviation schedule :=
  (schedule_df monthly_deposit salary_sacrifice current_tax retirement_tax
     retirement_age growth_rate retirement_monthly_withdrawal
     retirement_growth_rate retirement_duration).
Local Abbreviation accumulation_less :=
  (accumulation_10_years_less_df monthly_deposit salary_sacrifice
     current_tax retirement_age growth_rate).
Local Abbreviation growth_only :=
  (accumulation_10_years_growth_df monthly_deposit salary_sacrifice
     current_tax retirement_age growth_rate).
Local Abbreviation drawdown_less :=
  (drawdown_10_years_less_df monthly_deposit salary_sacrifice current_tax
     retirement_tax retirement_age growth_rate
     retirement_monthly_withdrawal retirement_growth_rate
     retirement_duration).
Local Abbreviation schedule_less :=
  (schedule_10_years_less_df monthly_deposit salary_sacrifice current_tax
     retirement_tax retirement_age growth_rate
     retirement_monthly_withdrawal retirement_growth_rate
     retirement_duration).

(** The row of accumulation month [m]. *)
Local Abbreviation accumulation_row m :=
  (mk_row m growth_rate (- IZR monthly_deposit)
     (pension_monthly_net_deposit monthly_deposit salary_sacrifice
        current_tax)
     (lisa_monthly_deposit monthly_deposit) (IZR monthly_deposit)
     (growth_rate / 100 / 12) m 0 0 0).

(** The row of the [m]-th month after retirement, starting from [pvs]. *)
Local Abbreviation drawdown_row pvs m :=
  (mk_row (m + retirement_age * 12) retirement_growth_rate
     (IZR retirement_monthly_withdrawal)
     (- pension_monthly_net_withdrawal retirement_tax
          retirement_monthly_withdrawal)
     (- IZR retirement_monthly_withdrawal)
     (- IZR retirement_monthly_withdrawal)
     (retirement_growth_rate / 100 / 12)
     (m + retirement_age * 12 - retirement_age * 12)
     (nth 0 pvs 0) (nth 1 pvs 0) (nth 2 pvs 0)).

(** The row of the [m]-th growth-only month. *)
Local Abbreviation growth_row m :=
  (mk_row (m + retirement_age * 12 - 119) growth_rate 0 0 0 0
     (growth_rate / 100 / 12)
     (m + retirement_age * 12 - 119 - (retirement_age * 12 - 120))
     (nth 0 fvs_less 0) (nth 1 fvs_less 0) (nth 2 fvs_less 0)).

Lemma accumulation_df_indexed :
  accumulation
  = map (fun k => accumulation_row (Z.of_nat k + 1)%Z)
        (seq 0 (Z.to_nat (retirement_age * 12))).
Proof.
  unfold accumulation_df, accumulation_months, np.arange1.
  rewrite map_map. reflexivity.
Qed.

Lemma drawdown_frame_indexed (pvs : list R) :
  drawdown_from pvs
  = map (fun k => drawdown_row pvs (Z.of_nat k + 1)%Z)
        (seq 0 (Z.to_nat (retirement_duration * 12))).
Proof.
  unfold drawdown_frame, drawdown_months, np.arange1.
  rewrite !map_map. reflexivity.
Qed.

Lemma growth_only_indexed :
  growth_only = map (fun k => growth_row (Z.of_nat k)) (seq 0 120).
Proof.
  unfold accumulation_10_years_growth_df.
  rewrite map_map. reflexivity.
Qed.

Lemma accumulation_less_indexed :
  (10 < retirement_age)%Z ->
  accumulation_less
  = map (fun k => accumulation_row (Z.of_nat k + 1)%Z)
        (seq 0 (Z.to_nat ((retirement_age - 10) * 12))).
Proof.
  intros Hage.
  unfold accumulation_10_years_less_df, loc_upto.
  rewrite accumulation_df_indexed, firstn_map, firstn_seq_min.
  do 2 f_equal. lia.
Qed.

Lemma fund_of_mk_row (v : Vehicle) (month : Z) (growth net dp dl di : R)
      (rate : R) (n : Z) (pv_p pv_l pv_i : R) :
  fund_of v (mk_row month growth net dp dl di rate n pv_p pv_l pv_i)
  = - npf.fv rate n (nth (idx v) [dp; dl; di] 0)
              (nth (idx v) [pv_p; pv_l; pv_i] 0).
Proof. destruct v; reflexivity. Qed.

Lemma deposit_of_mk_row (v : Vehicle) (month : Z) (growth net dp dl di : R)
      (rate : R) (n : Z) (pv_p pv_l pv_i : R) :
  deposit_of v (mk_row month growth net dp dl di rate n pv_p pv_l pv_i)
  = nth (idx v) [dp; dl; di] 0.
Proof. destruct v; reflexivity. Qed.

Lemma nth_three (v : Vehicle) (l : list R) :
  length l = 3%nat ->
  nth (idx v) [nth 0 l 0; nth 1 l 0; nth 2 l 0] 0 = nth (idx v) l 0.
Proof.
  destruct l as [| a [| b [| c [| d l]]]]; try discriminate.
  intros _. destruct v; reflexivity.
Qed.

Lemma fvs_nth (v : Vehicle) :
  nth (idx v) fvs 0
  = - npf.fv (growth_rate / 100 / 12) (retirement_age * 12)
             (nth (idx v) deposits 0) 0.
Proof. destruct v; reflexivity. Qed.

Lemma fvs_less_nth (v : Vehicle) :
  nth (idx v) fvs_less 0
  = - npf.fv (growth_rate / 100 / 12) ((retirement_age - 10) * 12)
             (nth (idx v) deposits 0) 0.
Proof. destruct v; reflexivity. Qed.

Lemma fvs_less_at_age_nth (v : Vehicle) :
  nth (idx v) fvs_less_at_age 0
  = - npf.fv (growth_rate / 100 / 12) (10 * 12) 0 (nth (idx v) fvs_less 0).
Proof. destruct v; reflexivity. Qed.

(** Unfold the balance and deposit columns of the rows in the goal. *)
Ltac row_columns :=
  unfold follows;
  rewrite ?fund_of_mk_row, ?deposit_of_mk_row;
  cbn [Growth mk_row].

Lemma accumulation_chained (v : Vehicle) : chained v accumulation.
Proof.
  rewrite accumulation_df_indexed.
  apply chained_map_seq. intros j _. row_columns.
  replace (Z.of_nat (S j) + 1)%Z with (Z.of_nat j + 1 + 1)%Z by lia.
  apply balance_step. lia.
Qed.

Lemma drawdown_frame_chained (v : Vehicle) (pvs : list R) :
  chained v (drawdown_from pvs).
Proof.
  rewrite drawdown_frame_indexed.
  apply chained_map_seq. intros j _. row_columns.
  replace (Z.of_nat (S j) + 1 + retirement_age * 12 - retirement_age * 12)%Z
    with (Z.of_nat j + 1 + 1)%Z by lia.
  replace (Z.of_nat j + 1 + retirement_age * 12 - retirement_age * 12)%Z
    with (Z.of_nat j + 1)%Z by lia.
  apply balance_step. lia.
Qed.

Lemma growth_only_chained (v : Vehicle) : chained v growth_only.
Proof.
  rewrite growth_only_indexed.
  apply chained_map_seq. intros j _. row_columns.
  replace (Z.of_nat (S j) + retirement_age * 12 - 119
           - (retirement_age * 12 - 120))%Z
    with (Z.of_nat j + 1 + 1)%Z by lia.
  replace (Z.of_nat j + retirement_age * 12 - 119
           - (retirement_age * 12 - 120))%Z
    with (Z.of_nat j + 1)%Z by lia.
  apply balance_step. lia.
Qed.

(** The first row after retirement continues a row whose balance is the
    starting value of the drawdown. *)
Lemma drawdown_frame_starts (v : Vehicle) (pvs : list R) (a b : Row) :
  length pvs = 3%nat ->
  fund_of v a = nth (idx v) pvs 0 ->
  nth_error (drawdown_from pvs) 0 = Some b ->
  follows v a b.
Proof.
  intros Hlen Ha Hb.
  rewrite drawdown_frame_indexed in Hb.
  apply nth_error_map_seq in Hb as [_ ->]. row_columns.
  replace (Z.of_nat 0 + 1 + retirement_age * 12 - retirement_age * 12)%Z
    with 1%Z by lia.
  rewrite balance_one, nth_three, Ha by exact Hlen. reflexivity.
Qed.

(** The last row of a non-empty accumulation frame of [n] months carries the
    balance after [n] months. *)
Lemma accumulation_last (v : Vehicle) (n : Z) (a : Row) :
  nth_error
    (map (fun k => accumulation_row (Z.of_nat k + 1)%Z) (seq 0 (Z.to_nat n)))
    (pred (Z.to_nat n)) = Some a ->
  fund_of v a
  = - npf.fv (growth_rate / 100 / 12) n (nth (idx v) deposits 0) 0.
Proof.
  intros Ha. apply nth_error_map_seq in Ha as [Hlt ->].
  rewrite fund_of_mk_row.
  replace (Z.of_nat (pred (Z.to_nat n)) + 1)%Z with n by lia.
  destruct v; reflexivity.
Qed.

Lemma schedule_df_chained (v : Vehicle) : chained v schedule.
Proof.
  unfold schedule_df.
  apply chained_app.
  - apply accumulation_chained.
  - apply drawdown_frame_chained.
  - intros a b Ha Hb.
    apply (drawdown_frame_starts v fvs a b); [reflexivity | | exact Hb].
    rewrite fvs_nth. apply accumulation_last.
    rewrite accumulation_df_indexed in Ha.
    rewrite length_map, length_seq in Ha. exact Ha.
Qed.

Lemma schedule_less_chained (v : Vehicle) (rows : list Row) :
  schedule_less = Some rows -> chained v rows.
Proof.
  unfold schedule_10_years_less_df.
  destruct (Z.leb_spec retirement_age 10) as [Hle | Hgt]; [discriminate |].
  intros H. apply Some_eq in H. subst rows.
  apply chained_app; [| apply chained_app |].
  - unfold accumulation_10_years_less_df, loc_upto.
    intros k prev cur Hp Hc.
    rewrite nth_error_firstn in Hp, Hc.
    destruct (k <? _)%nat; [| discriminate].
    destruct (S k <? _)%nat; [| discriminate].
    exact (accumulation_chained v k prev cur Hp Hc).
  - apply growth_only_chained.
  - apply drawdown_frame_chained.
  - intros a b Ha Hb.
    apply (drawdown_frame_starts v fvs_less_at_age a b);
      [reflexivity | | exact Hb].
    rewrite growth_only_indexed in Ha.
    rewrite length_map, length_seq in Ha.
    apply nth_error_map_seq in Ha as [_ ->].
    rewrite fund_of_mk_row, nth_three, fvs_less_at_age_nth by reflexivity.
    cbn [nth idx]. destruct v; cbn [idx nth]; f_equal; f_equal; lia.
  - intros a b Ha Hb.
    rewrite (accumulation_less_indexed Hgt) in Ha.
    rewrite length_map, length_seq in Ha.
    apply (accumulation_last v) in Ha.
    rewrite nth_error_app1 in Hb
      by (rewrite growth_only_indexed, length_map, length_seq; lia).
    rewrite growth_only_indexed in Hb.
    apply nth_error_map_seq in Hb as [_ ->].
    row_columns.
    replace (Z.of_nat 0 + retirement_age * 12 - 119
             - (retirement_age * 12 - 120))%Z with 1%Z by lia.
    rewrite balance_one, nth_three, Ha, fvs_less_nth by reflexivity.
    destruct v; cbn [idx nth]; ring.
Qed.

(** Growth without payments multiplies the balance. *)
Lemma growth_only_closed (rate pv : R) (n : Z) :
  - npf.fv rate n 0 pv = pv * powerRZ (1 + rate) n.
Proof.
  unfold npf.fv, npf.when_end.
  destruct (Req_dec_T rate 0) as [E | NE].
  - subst rate. rewrite Rplus_0_r, powerRZ_R1. ring.
  - field. exact NE.
Qed.

Lemma accumulation_length :
  length accumulation = Z.to_nat (retirement_age * 12).
Proof.
  rewrite accumulation_df_indexed, length_map, length_seq. reflexivity.
Qed.

Lemma accumulation_less_length :
  (10 < retirement_age)%Z ->
  length accumulation_less = Z.to_nat ((retirement_age - 10) * 12).
Proof.
  intros Hgt.
  rewrite (accumulation_less_indexed Hgt), length_map, length_seq.
  reflexivity.
Qed.

Lemma growth_only_length : length growth_only = 120%nat.
Proof.
  rewrite growth_only_indexed, length_map, length_seq. reflexivity.
Qed.

Lemma drawdown_frame_length (pvs : list R) :
  length (drawdown_from pvs) = Z.to_nat (retirement_duration * 12).
Proof.
  rewrite drawdown_frame_indexed, length_map, length_seq. reflexivity.
Qed.

Lemma accumulation_months_index (k : nat) (r : Row) :
  nth_error accumulation k = Some r -> Month r = (Z.of_nat k + 1)%Z.
Proof.
  rewrite accumulation_df_indexed. intros H.
  apply nth_error_map_seq in H as [_ ->]. reflexivity.
Qed.

Lemma drawdown_months_index (pvs : list R) (k : nat) (r : Row) :
  nth_error (drawdown_from pvs) k = Some r ->
  Month r = (Z.of_nat k + 1 + retirement_age * 12)%Z.
Proof.
  rewrite drawdown_frame_indexed. intros H.
  apply nth_error_map_seq in H as [_ ->]. reflexivity.
Qed.

Lemma growth_only_months_index (k : nat) (r : Row) :
  nth_error growth_only k = Some r ->
  Month r = (Z.of_nat k + retirement_age * 12 - 119)%Z.
Proof.
  rewrite growth_only_indexed. intros H.
  apply nth_error_map_seq in H as [_ ->]. reflexivity.
Qed.

Lemma schedule_df_months (k : nat) (r : Row) :
  (0 <= retirement_age)%Z ->
  nth_error schedule k = Some r -> Month r = (Z.of_nat k + 1)%Z.
Proof.
  intros Hage. unfold schedule_df.
  rewrite nth_error_app, accumulation_length.
  destruct (Nat.ltb_spec k (Z.to_nat (retirement_age * 12))) as [Hlt | Hge].
  - apply accumulation_months_index.
  - intros H. apply drawdown_months_index in H. lia.
Qed.

Lemma schedule_less_months (rows : list Row) (k : nat) (r : Row) :
  schedule_less = Some rows ->
  nth_error rows k = Some r -> Month r = (Z.of_nat k + 1)%Z.
Proof.
  unfold schedule_10_years_less_df.
  destruct (Z.leb_spec retirement_age 10) as [Hle | Hgt]; [discriminate |].
  intros H. apply Some_eq in H. subst rows.
  rewrite !nth_error_app, growth_only_length,
    (accumulation_less_length Hgt).
  destruct (Nat.ltb_spec k (Z.to_nat ((retirement_age - 10) * 12)))
    as [Hlt | Hge].
  - rewrite (accumulation_less_indexed Hgt). intros H.
    apply nth_error_map_seq in H as [_ ->]. reflexivity.
  - destruct (Nat.ltb_spec (k - Z.to_nat ((retirement_age - 10) * 12)) 120)
      as [Hlt' | Hge'].
    + intros H. apply growth_only_months_index in H. lia.
    + intros H. apply drawdown_months_index in H. lia.
Qed.

Lemma schedule_less_length (rows : list Row) :
  schedule_less = Some rows -> length rows = length schedule.
Proof.
  unfold schedule_10_years_less_df.
  destruct (Z.leb_spec retirement_age 10) as [Hle | Hgt]; [discriminate |].
  intros H. apply Some_eq in H. subst rows.
  unfold schedule_df, drawdown_10_years_less_df, drawdown_df.
  rewrite !length_app, (accumulation_less_length Hgt), growth_only_length,
    accumulation_length, !drawdown_frame_length.
  lia.
Qed.

Lemma In_map_seq {A : Type} (g : nat -> A) (n : nat) (a : A) :
  In a (map g (seq 0 n)) -> exists k, (k < n)%nat /\ a = g k.
Proof.
  intros H. apply in_map_iff in H as (k & <- & Hk).
  apply in_seq in Hk. exists k. split; [lia | reflexivity].
Qed.

(** C5. In the standard schedule and in the schedule with deposits stopping
    ten years early, for each vehicle, the balance of every row is the balance
    of the row before it compounded for one month at the row's own growth
    rate, plus the row's deposit, the payment being added after the
    compounding (end of period).  The deposit column holds the gross deposit
    in accumulation rows and the negated gross withdrawal in drawdown rows.
    The balance of month 1 is the gross deposit, without growth. *)
Theorem balance_recurrence (v : Vehicle) :
  chained v schedule
  /\ (forall rows, schedule_less = Some rows -> chained v rows)
  /\ (forall r, In r accumulation ->
                deposit_of v r = nth (idx v) deposits 0
                /\ (Month r = 1%Z -> fund_of v r = deposit_of v r))
  /\ (forall r, In r drawdown ->
                deposit_of v r = nth (idx v) withdrawals 0).
Proof.
  split; [apply schedule_df_chained |].
  split; [apply schedule_less_chained |].
  split.
  - intros r Hr. rewrite accumulation_df_indexed in Hr.
    apply In_map_seq in Hr as (k & _ & ->).
    rewrite fund_of_mk_row, deposit_of_mk_row.
    split; [reflexivity |].
    cbn [Month mk_row]. intros Hm.
    replace (Z.of_nat k + 1)%Z with 1%Z by lia.
    rewrite balance_one.
    destruct v; cbn [idx nth]; ring.
  - intros r Hr. unfold drawdown_df in Hr.
    rewrite drawdown_frame_indexed in Hr.
    apply In_map_seq in Hr as (k & _ & ->).
    rewrite deposit_of_mk_row. destruct v; reflexivity.
Qed.

(** C8. With a non-negative number of years to retirement, the row at
    position [k] (counting from 0) of the standard schedule, and of the
    schedule with deposits stopping ten years early when it exists, has month
    index [k + 1]: the index starts at 1 and grows by one per row across the
    phase boundaries.  The accumulation frame has [retirement_age * 12] rows,
    its last row has month [retirement_age * 12], and the first drawdown row
    has month [retirement_age * 12 + 1]. *)
Theorem month_index_continuous :
  (0 <= retirement_age)%Z ->
  numbered_from_one schedule
  /\ (forall rows, schedule_less = Some rows -> numbered_from_one rows)
  /\ length accumulation = Z.to_nat (retirement_age * 12)
  /\ (forall r,
         nth_error accumulation (pred (length accumulation)) = Some r ->
         Month r = (retirement_age * 12)%Z)
  /\ (forall r,
         nth_error drawdown 0 = Some r ->
         Month r = (retirement_age * 12 + 1)%Z).
Proof.
  intros Hage.
  split; [intros k r; apply schedule_df_months; exact Hage |].
  split; [intros rows Hrows k r; apply schedule_less_months; exact Hrows |].
  split; [apply accumulation_length |].
  split.
  - intros r Hr. rewrite accumulation_length in Hr.
    rewrite accumulation_df_indexed in Hr.
    apply nth_error_map_seq in Hr as [Hlt ->].
    cbn [Month mk_row]. lia.
  - intros r Hr. apply drawdown_months_index in Hr. lia.
Qed.

(** C4. The schedule with deposits stopping ten years early is absent
    whenever [retirement_age <= 10].  Whenever [retirement_age > 10] it is the
    concatenation of three frames: a contribution phase of exactly
    [(retirement_age - 10) * 12] rows carrying the monthly gross deposits; then
    exactly 120 rows with zero cash flow and zero deposits, in which the
    balance of every vehicle is the balance at the end of the contribution
    phase multiplied by [(1 + rate)] once per elapsed month, the same way for
    all three vehicles, ending in month [retirement_age * 12] with the value
    from which the drawdown frame starts; then the drawdown frame. *)
Theorem truncated_schedule :
  ((retirement_age <= 10)%Z -> schedule_less = None)
  /\ ((10 < retirement_age)%Z ->
      schedule_less = Some (accumulation_less ++ growth_only ++ drawdown_less)
      /\ length accumulation_less = Z.to_nat ((retirement_age - 10) * 12)
      /\ (forall r v, In r accumulation_less ->
                      deposit_of v r = nth (idx v) deposits 0)
      /\ length growth_only = 120%nat
      /\ (forall k r v,
             nth_error growth_only k = Some r ->
             Net_take_home r = 0
             /\ deposit_of v r = 0
             /\ Month r = ((retirement_age - 10) * 12 + Z.of_nat k + 1)%Z
             /\ fund_of v r
                = nth (idx v) fvs_less 0
                  * (1 + growth_rate / 100 / 12) ^ (k + 1))
      /\ (forall r v,
             nth_error growth_only 119 = Some r ->
             Month r = (retirement_age * 12)%Z
             /\ fund_of v r = nth (idx v) fvs_less_at_age 0)
      /\ drawdown_less = drawdown_from fvs_less_at_age).
Proof.
  unfold schedule_10_years_less_df. split.
  - intros Hle.
    destruct (Z.leb_spec retirement_age 10) as [_ | Hgt]; [reflexivity | lia].
  - intros Hgt.
    destruct (Z.leb_spec retirement_age 10) as [Hle | _]; [lia |].
    split; [reflexivity |].
    split; [apply (accumulation_less_length Hgt) |].
    split.
    { intros r v Hr. rewrite (accumulation_less_indexed Hgt) in Hr.
      apply In_map_seq in Hr as (k & _ & ->).
      apply deposit_of_mk_row. }
    split; [apply growth_only_length |].
    split.
    { intros k r v Hr. rewrite growth_only_indexed in Hr.
      apply nth_error_map_seq in Hr as [Hk ->].
      rewrite fund_of_mk_row, deposit_of_mk_row, nth_three by reflexivity.
      cbn [Net_take_home Month mk_row].
      split; [reflexivity |].
      split; [destruct v; reflexivity |].
      split; [lia |].
      replace (nth (idx v) [0; 0; 0] 0) with 0 by (destruct v; reflexivity).
      rewrite growth_only_closed, pow_powerRZ.
      do 2 f_equal. lia. }
    split; [| reflexivity].
    intros r v Hr. rewrite growth_only_indexed in Hr.
    apply nth_error_map_seq in Hr as [_ ->].
    rewrite fund_of_mk_row, nth_three, fvs_less_at_age_nth by reflexivity.
    cbn [Month mk_row].
    split; [lia |].
    replace (nth (idx v) [0; 0; 0] 0) with 0 by (destruct v; reflexivity).
    do 2 f_equal. lia.
Qed.

(** *** Signs *)

Lemma deposits_positive (v : Vehicle) :
  (1 <= monthly_deposit)%Z -> 0 < nth (idx v) deposits 0.
Proof.
  intros Hd. apply IZR_le in Hd.
  unfold monthly_deposits, pension_monthly_net_deposit, lisa_monthly_deposit,
    brt_tax_rate, brt_ni_rate, hrt_tax_rate, hrt_ni_rate.
  destruct v, current_tax, salary_sacrifice; cbn; lra.
Qed.

Lemma deposits_nonneg (v : Vehicle) :
  (0 <= monthly_deposit)%Z -> 0 <= nth (idx v) deposits 0.
Proof.
  intros Hd. apply IZR_le in Hd.
  unfold monthly_deposits, pension_monthly_net_deposit, lisa_monthly_deposit,
    brt_tax_rate, brt_ni_rate, hrt_tax_rate, hrt_ni_rate.
  destruct v, current_tax, salary_sacrifice; cbn; lra.
Qed.

Lemma withdrawals_negative (v : Vehicle) :
  (1 <= retirement_monthly_withdrawal)%Z -> nth (idx v) withdrawals 0 < 0.
Proof.
  intros Hw. apply IZR_le in Hw.
  unfold monthly_withdrawals, pension_monthly_net_withdrawal,
    brt_tax_rate, hrt_tax_rate.
  destruct v, retirement_tax; cbn; lra.
Qed.

(** With non-negative rate, payment and present value the balance never
    becomes negative. *)
Lemma balance_nonneg (rate pmt pv : R) (n : Z) :
  0 <= rate -> 0 <= pmt -> 0 <= pv -> (0 <= n)%Z ->
  0 <= - npf.fv rate n pmt pv.
Proof.
  intros Hr Hp Hv Hn. rewrite <- (Z2Nat.id n Hn).
  induction (Z.to_nat n) as [| k IH].
  - change (Z.of_nat 0) with 0%Z. rewrite balance_zero. exact Hv.
  - rewrite Nat2Z.inj_succ. unfold Z.succ.
    rewrite balance_step by lia. nra.
Qed.

(** Once withdrawals have driven the balance below zero it stays there. *)
Lemma balance_negative_persists (rate w pv : R) (n : Z) (k : nat) :
  0 <= rate -> 0 <= w -> (0 <= n)%Z ->
  - npf.fv rate n (- w) pv < 0 ->
  - npf.fv rate (n + Z.of_nat k) (- w) pv < 0.
Proof.
  intros Hr Hw Hn Hneg.
  induction k as [| k IH].
  - rewrite Z.add_0_r. exact Hneg.
  - replace (n + Z.of_nat (S k))%Z with (n + Z.of_nat k + 1)%Z by lia.
    rewrite balance_step by lia. nra.
Qed.

(** If the last row of a drawdown frame has a non-negative balance, so has
    every row of the frame. *)
Lemma drawdown_frame_nonneg (pvs : list R) (v : Vehicle) (last r : Row) :
  (1 <= retirement_monthly_withdrawal)%Z ->
  0 <= retirement_growth_rate ->
  nth_error (drawdown_from pvs) (pred (length (drawdown_from pvs)))
  = Some last ->
  0 <= fund_of v last ->
  In r (drawdown_from pvs) ->
  0 <= fund_of v r.
Proof.
  intros Hw Hg Hlast Hpos Hr.
  rewrite drawdown_frame_length in Hlast.
  rewrite drawdown_frame_indexed in Hlast, Hr.
  apply nth_error_map_seq in Hlast as [Hn ->].
  apply In_map_seq in Hr as (k & Hk & ->).
  rewrite fund_of_mk_row in Hpos |- *.
  set (n := Z.to_nat (retirement_duration * 12)) in *.
  replace (Z.of_nat (pred n) + 1 + retirement_age * 12
           - retirement_age * 12)%Z
    with (Z.of_nat k + 1 + Z.of_nat (pred n - k))%Z in Hpos by lia.
  replace (Z.of_nat k + 1 + retirement_age * 12 - retirement_age * 12)%Z
    with (Z.of_nat k + 1)%Z by lia.
  apply Rnot_lt_le. intros Hneg.
  apply Rle_not_lt in Hpos. apply Hpos.
  assert (Hwd : nth (idx v) withdrawals 0 < 0)
    by (apply withdrawals_negative; exact Hw).
  unfold monthly_withdrawals in Hwd.
  set (w := nth (idx v) _ 0) in *.
  replace w with (- - w) in Hneg |- * by ring.
  apply balance_negative_persists; [lra | lra | lia | exact Hneg].
Qed.

(** C9 (as the script has it). With inputs in the ranges of the widgets:
    in accumulation rows the net cash flow is negative, every gross deposit
    is positive and every balance is non-negative; in drawdown rows the net
    cash flow is positive and every deposit column holds a negated, positive
    gross withdrawal; in the growth-only rows of the ten-years-early schedule
    cash flow and deposits are zero and balances are non-negative.  A
    drawdown balance is not kept above zero: the balances of a drawdown frame
    are all non-negative provided the balance of its last row is. *)
Theorem sign_convention :
  (1 <= monthly_deposit)%Z -> 0 <= growth_rate ->
  (1 <= retirement_monthly_withdrawal)%Z -> 0 <= retirement_growth_rate ->
  (forall r v, In r accumulation ->
               Net_take_home r < 0 /\ 0 < deposit_of v r /\ 0 <= fund_of v r)
  /\ (forall r v, In r drawdown ->
                  0 < Net_take_home r /\ deposit_of v r < 0)
  /\ (forall r v last,
         nth_error drawdown (pred (length drawdown)) = Some last ->
         0 <= fund_of v last -> In r drawdown -> 0 <= fund_of v r)
  /\ ((10 < retirement_age)%Z ->
      (forall r v, In r growth_only ->
                   Net_take_home r = 0 /\ deposit_of v r = 0
                   /\ 0 <= fund_of v r)
      /\ (forall r v, In r drawdown_less ->
                      0 < Net_take_home r /\ deposit_of v r < 0)
      /\ (forall r v last,
             nth_error drawdown_less (pred (length drawdown_less)) = Some last ->
             0 <= fund_of v last -> In r drawdown_less -> 0 <= fund_of v r)).
Proof.
  intros Hd Hg Hw Hrg.
  assert (Hrate : 0 <= growth_rate / 100 / 12) by lra.
  assert (Hdraw : forall pvs r v,
             In r (drawdown_from pvs) ->
             0 < Net_take_home r /\ deposit_of v r < 0).
  { intros pvs r v Hr. rewrite drawdown_frame_indexed in Hr.
    apply In_map_seq in Hr as (k & _ & ->).
    rewrite deposit_of_mk_row. cbn [Net_take_home mk_row].
    split; [apply IZR_lt; lia |].
    exact (withdrawals_negative v Hw). }
  split.
  { intros r v Hr. rewrite accumulation_df_indexed in Hr.
    apply In_map_seq in Hr as (k & _ & ->).
    rewrite fund_of_mk_row, deposit_of_mk_row. cbn [Net_take_home mk_row].
    pose proof (deposits_positive v Hd) as Hdv.
    unfold monthly_deposits in Hdv.
    split; [apply IZR_le in Hd; lra |].
    split; [exact Hdv |].
    apply balance_nonneg; [exact Hrate | lra | | lia].
    destruct v; cbn [idx nth]; lra. }
  split; [intros r v; apply Hdraw |].
  split.
  { intros r v last Hlast Hpos Hr.
    exact (drawdown_frame_nonneg _ v last r Hw Hrg Hlast Hpos Hr). }
  intros Hage.
  split.
  { intros r v Hr. rewrite growth_only_indexed in Hr.
    apply In_map_seq in Hr as (k & _ & ->).
    rewrite fund_of_mk_row, deposit_of_mk_row, nth_three by reflexivity.
    cbn [Net_take_home mk_row].
    split; [reflexivity |].
    split; [destruct v; reflexivity |].
    apply balance_nonneg; [exact Hrate | destruct v; cbn; lra | | lia].
    rewrite fvs_less_nth.
    pose proof (deposits_positive v Hd) as Hdv.
    apply balance_nonneg; [exact Hrate | lra | lra | lia]. }
  split; [intros r v; apply Hdraw |].
  intros r v last Hlast Hpos Hr.
  exact (drawdown_frame_nonneg _ v last r Hw Hrg Hlast Hpos Hr).
Qed.

End ScheduleProperties.

(** C2. For every desired net monthly withdrawal and retirement tax band the
    withdrawal array of the script holds, negated, the gross withdrawals of
    the rule table: pension [net / (1 - 0.75 * tax)], LISA and ISA [net].
    For net 200 at the basic rate the pension gross withdrawal is
    [200 / 0.85], which is 235.29 to two decimal places. *)
Theorem withdrawal_normalisation :
  (forall (retirement_tax : TaxBand) (retirement_monthly_withdrawal : Z)
          (v : Vehicle),
      nth (idx v)
          (monthly_withdrawals retirement_tax retirement_monthly_withdrawal) 0
      = - spec_gross_withdrawal v retirement_tax
            (IZR retirement_monthly_withdrawal))
  /\ pension_monthly_net_withdrawal BRT 200 = 200 / 0.85
  /\ 235.285 <= pension_monthly_net_withdrawal BRT 200 < 235.295.
Proof.
  split; [| split].
  - intros band w v.
    destruct v, band; cbn; unfold brt_tax_rate, hrt_tax_rate;
      try reflexivity; do 2 f_equal; lra.
  - cbn. unfold brt_tax_rate. f_equal. lra.
  - cbn. unfold brt_tax_rate. lra.
Qed.

(** ** Sustainable duration *)

(** With a non-negative rate, when the monthly yield of the fund covers the
    withdrawal, [nper] delivers NaN. *)
Lemma nper_indefinite (rate pay pv : R) :
  0 <= rate -> 0 < pay -> pv * rate >= pay ->
  np.abs (npf.nper rate (- pay) pv 0) = NaN.
Proof.
  intros Hr Hpay Hyield.
  unfold npf.nper, npf.when_end.
  destruct (Req_dec_T rate 0) as [E | NE]; [subst rate; lra |].
  assert (Hrate : 0 < rate) by lra.
  set (z := - pay * (1 + rate * 0) / rate).
  assert (Hz : z < 0).
  { unfold z. rewrite Rmult_0_r, Rplus_0_r, Rmult_1_r.
    apply Ropp_lt_cancel. rewrite Ropp_0.
    replace (- (- pay / rate)) with (pay / rate) by (field; exact NE).
    apply Rdiv_lt_0_compat; assumption. }
  assert (Hsum : 0 <= pv + z).
  { unfold z. rewrite Rmult_0_r, Rplus_0_r, Rmult_1_r.
    replace (pv + - pay / rate) with ((pv * rate - pay) / rate)
      by (field; exact NE).
    apply Rmult_le_pos; [lra | left; apply Rinv_0_lt_compat; exact Hrate]. }
  unfold np.divide at 2.
  destruct (Req_dec_T (pv + z) 0) as [E0 | NE0].
  - destruct (Req_dec_T (- 0 + z) 0) as [Ez | NEz]; [lra |].
    destruct (Rlt_dec 0 (- 0 + z)) as [Hlt | _]; [lra |].
    reflexivity.
  - assert (Hneg : (- 0 + z) / (pv + z) < 0).
    { assert (Hinv : 0 < / (pv + z)) by (apply Rinv_0_lt_compat; lra).
      unfold Rdiv. nra. }
    unfold np.log at 1.
    destruct (Rlt_dec 0 ((- 0 + z) / (pv + z))) as [Hlt | _]; [lra |].
    destruct (Req_dec_T ((- 0 + z) / (pv + z)) 0) as [E1 | _]; [lra |].
    reflexivity.
Qed.

(** With a non-negative rate and fund, when the withdrawal exceeds the monthly
    yield, [nper] delivers a finite non-negative count, and [fv] at that count
    is zero. *)
Lemma nper_finite (rate pay pv : R) :
  0 <= rate -> 0 < pay -> 0 <= pv -> pv * rate < pay ->
  exists n,
    np.abs (npf.nper rate (- pay) pv 0) = Fin n
    /\ 0 <= n
    /\ npf.fv_float rate n (- pay) pv = 0.
Proof.
  intros Hr Hpay Hpv Hyield.
  unfold npf.nper, npf.fv_float, npf.when_end.
  destruct (Req_dec_T rate 0) as [E | NE].
  - subst rate.
    destruct (Req_dec_T (- pay * (1 + 0 * 0)) 0) as [E0 | _];
      [exfalso; lra |].
    unfold np.divide.
    destruct (Req_dec_T (- pay) 0) as [E0 | _]; [lra |].
    assert (Hq : 0 <= pv / pay).
    { apply Rmult_le_pos; [exact Hpv | left; apply Rinv_0_lt_compat; lra]. }
    exists (pv / pay). cbn [np.abs].
    replace ((- 0 + pv) / - pay) with (- (pv / pay)) by (field; lra).
    rewrite Rabs_Ropp, (Rabs_pos_eq _ Hq).
    split; [reflexivity |]. split; [exact Hq |]. field. lra.
  - assert (Hrate : 0 < rate) by lra.
    set (z := - pay * (1 + rate * 0) / rate).
    assert (Hzv : z = - (pay / rate)) by (unfold z; field; exact NE).
    assert (Hq : 0 < pay / rate) by (apply Rdiv_lt_0_compat; assumption).
    assert (Hsum : pv + z < 0).
    { rewrite Hzv.
      replace (pv + - (pay / rate)) with (- ((pay - pv * rate) / rate))
        by (field; exact NE).
      apply Ropp_lt_cancel. rewrite Ropp_0, Ropp_involutive.
      apply Rdiv_lt_0_compat; lra. }
    set (ratio := (- 0 + z) / (pv + z)).
    assert (Hratio : 1 <= ratio).
    { unfold ratio.
      replace ((- 0 + z) / (pv + z)) with (- z / - (pv + z))
        by (field; lra).
      apply (Rmult_le_reg_r (- (pv + z))); [lra |].
      replace (- z / - (pv + z) * - (pv + z)) with (- z) by (field; lra).
      lra. }
    unfold np.divide at 2.
    destruct (Req_dec_T (pv + z) 0) as [E0 | _]; [lra |].
    fold ratio. unfold np.log.
    destruct (Rlt_dec 0 ratio) as [_ | Hn]; [| lra].
    destruct (Rlt_dec 0 (1 + rate)) as [_ | Hn]; [| lra].
    assert (Hln : 0 < ln (1 + rate)).
    { rewrite <- ln_1. apply ln_increasing; lra. }
    assert (Hlr : 0 <= ln ratio).
    { rewrite <- ln_1. destruct Hratio as [Hlt | <-]; [| lra].
      left. apply ln_increasing; lra. }
    unfold np.divide.
    destruct (Req_dec_T (ln (1 + rate)) 0) as [E1 | _]; [lra |].
    assert (Hn : 0 <= ln ratio / ln (1 + rate)).
    { apply Rmult_le_pos; [exact Hlr | left; apply Rinv_0_lt_compat; lra]. }
    exists (ln ratio / ln (1 + rate)). cbn [np.abs].
    rewrite (Rabs_pos_eq _ Hn).
    split; [reflexivity |]. split; [exact Hn |].
    unfold Rpower.
    replace (ln ratio / ln (1 + rate) * ln (1 + rate)) with (ln ratio)
      by (field; lra).
    rewrite exp_ln by lra.
    fold z. unfold ratio. field. lra.
Qed.

(** At a whole, non-negative period count and a positive base, [fv] on a
    float count is [fv] on the integer. *)
Lemma fv_float_whole (rate pmt pv : R) (n : Z) :
  0 < 1 + rate -> npf.fv_float rate (IZR n) pmt pv = npf.fv rate n pmt pv.
Proof.
  intros Hbase. unfold npf.fv_float, npf.fv.
  destruct (Req_dec_T rate 0) as [E | NE]; [reflexivity |].
  rewrite (powerRZ_Rpower _ _ Hbase). reflexivity.
Qed.

Lemma durations_nth
      (monthly_deposit : Z) (salary_sacrifice : YesNo)
      (current_tax retirement_tax : TaxBand) (retirement_age : Z)
      (growth_rate : R) (retirement_monthly_withdrawal : Z)
      (retirement_growth_rate : R) (v : Vehicle) :
  nth (idx v)
      (retirement_withdrawal_durations monthly_deposit salary_sacrifice
         current_tax retirement_tax retirement_age growth_rate
         retirement_monthly_withdrawal retirement_growth_rate) NaN
  = np.abs
      (npf.nper (retirement_growth_rate / 100 / 12)
         (nth (idx v)
              (monthly_withdrawals retirement_tax
                 retirement_monthly_withdrawal) 0)
         (nth (idx v)
              (retirement_fvs monthly_deposit salary_sacrifice current_tax
                 retirement_age growth_rate) 0)
         0).
Proof. destruct v; reflexivity. Qed.


(** ** Rates below -1 *)

Lemma fv_nonzero_rate (rate : R) (n : Z) (pmt pv : R) :
  rate <> 0 ->
  npf.fv rate n pmt pv
  = - pv * powerRZ (1 + rate) n - pmt / rate * (powerRZ (1 + rate) n - 1).
Proof.
  intros NE. unfold npf.fv, npf.when_end.
  destruct (Req_dec_T rate 0) as [E | _]; [contradiction |].
  field. exact NE.
Qed.

Lemma fv_zero_rate (rate : R) (n : Z) (pmt pv : R) :
  rate = 0 -> npf.fv rate n pmt pv = - (pv + pmt * IZR n).
Proof.
  intros E. unfold npf.fv.
  destruct (Req_dec_T rate 0) as [_ | NE]; [reflexivity | contradiction].
Qed.

Lemma nper_below_minus_one (rate pmt pv fv : R) :
  rate < -1 -> npf.nper rate pmt pv fv = NaN.
Proof.
  intros Hrate. unfold npf.nper.
  destruct (Req_dec_T rate 0) as [E | _]; [lra |].
  unfold np.log at 2.
  destruct (Rlt_dec 0 (1 + rate)) as [H | _]; [lra |].
  destruct (Req_dec_T (1 + rate) 0) as [H | _]; [lra |].
  destruct (np.log _); reflexivity.
Qed.

Lemma pmt_nonzero_rate (rate : R) (n : Z) (pv fv : R) :
  rate <> 0 ->
  npf.pmt rate n pv fv
  = np.divide (Fin (- (fv + pv * powerRZ (1 + rate) n)))
              (Fin ((powerRZ (1 + rate) n - 1) / rate)).
Proof.
  intros NE. unfold npf.pmt, npf.when_end.
  destruct (Req_dec_T rate 0) as [E | _]; [contradiction |].
  do 2 f_equal. field. exact NE.
Qed.

(** C6 (as the script has it). No primitive has an error outcome.  At a rate
    below -1, [fv] returns the value of its closed formula, [nper] returns
    NaN, and [pmt] returns the quotient of its closed formula.  The monthly
    rates the script passes are never below -1: a growth rate in the widget
    range [0, 100] gives a rate between 0 and 1/12. *)
Theorem primitives_below_minus_one :
  (forall rate : R,
      rate < -1 ->
      (forall (n : Z) (pmt pv : R),
          npf.fv rate n pmt pv
          = - pv * powerRZ (1 + rate) n
            - pmt / rate * (powerRZ (1 + rate) n - 1))
      /\ (forall pmt pv fv : R, npf.nper rate pmt pv fv = NaN)
      /\ (forall (n : Z) (pv fv : R),
             npf.pmt rate n pv fv
             = np.divide (Fin (- (fv + pv * powerRZ (1 + rate) n)))
                         (Fin ((powerRZ (1 + rate) n - 1) / rate))))
  /\ (forall growth_rate : R,
         0 <= growth_rate <= 100 -> 0 <= growth_rate / 100 / 12 <= 1 / 12).
Proof.
  split; [| intros g Hg; lra].
  intros rate Hrate.
  assert (NE : rate <> 0) by lra.
  split; [| split].
  - intros n pmt pv. apply fv_nonzero_rate. exact NE.
  - intros pmt pv fv. apply nper_below_minus_one. exact Hrate.
  - intros n pv fv. apply pmt_nonzero_rate. exact NE.
Qed.

(** ** Terminal values *)

(** With non-negative rate, payment and present value the balance does not
    decrease as periods are added. *)
Lemma balance_mono (rate pmt pv : R) (n m : Z) :
  0 <= rate -> 0 <= pmt -> 0 <= pv -> (0 <= n <= m)%Z ->
  - npf.fv rate n pmt pv <= - npf.fv rate m pmt pv.
Proof.
  intros Hr Hp Hv Hnm.
  replace m with (n + Z.of_nat (Z.to_nat (m - n)))%Z by lia.
  induction (Z.to_nat (m - n)) as [| k IH].
  - rewrite Z.add_0_r. apply Rle_refl.
  - replace (n + Z.of_nat (S k))%Z with (n + Z.of_nat k + 1)%Z by lia.
    rewrite balance_step by lia.
    assert (H0 : 0 <= - npf.fv rate (n + Z.of_nat k) pmt pv)
      by (apply balance_nonneg; [assumption .. | lia]).
    nra.
Qed.

(** Letting a balance grow for [k] periods without payments gives no more than
    continuing the payments for [k] periods. *)
Lemma balance_growth_le (rate pmt pv : R) (n : Z) (k : nat) :
  0 <= rate -> 0 <= pmt -> (0 <= n)%Z ->
  (- npf.fv rate n pmt pv) * powerRZ (1 + rate) (Z.of_nat k)
  <= - npf.fv rate (n + Z.of_nat k) pmt pv.
Proof.
  intros Hr Hp Hn.
  induction k as [| k IH].
  - rewrite Z.add_0_r. cbn [Z.of_nat powerRZ]. lra.
  - replace (Z.of_nat (S k)) with (Z.of_nat k + 1)%Z by lia.
    rewrite Z.add_assoc, powerRZ_succ, balance_step by lia.
    nra.
Qed.

(** C7. For every vehicle, every monthly deposit of at least 0 and every
    non-negative annual growth rate, the fund value at retirement does not
    decrease when the number of years to retirement grows. *)
Theorem terminal_value_monotone :
  forall (monthly_deposit : Z) (salary_sacrifice : YesNo)
         (current_tax : TaxBand) (growth_rate : R) (v : Vehicle)
         (years years' : Z),
    (0 <= monthly_deposit)%Z -> 0 <= growth_rate ->
    (0 <= years <= years')%Z ->
    nth (idx v)
        (retirement_fvs monthly_deposit salary_sacrifice current_tax
           years growth_rate) 0
    <= nth (idx v)
           (retirement_fvs monthly_deposit salary_sacrifice current_tax
              years' growth_rate) 0.
Proof.
  intros md ss ct g v y y' Hmd Hg Hy.
  rewrite !fvs_nth.
  apply balance_mono; [lra | | lra | lia].
  apply deposits_nonneg. exact Hmd.
Qed.

(** C10. For every vehicle, every monthly deposit of at least 0, every
    non-negative growth rate and every number of years to retirement above
    10, the fund value reached by depositing for [(retirement_age - 10) * 12]
    months and then growing for 120 months without deposits is at most the
    fund value reached by depositing for all [retirement_age * 12] months. *)
Theorem truncated_terminal_le_full :
  forall (monthly_deposit : Z) (salary_sacrifice : YesNo)
         (current_tax : TaxBand) (retirement_age : Z) (growth_rate : R)
         (v : Vehicle),
    (0 <= monthly_deposit)%Z -> 0 <= growth_rate ->
    (10 < retirement_age)%Z ->
    nth (idx v)
        (retirement_fvs_10_years_less_at_age monthly_deposit salary_sacrifice
           current_tax retirement_age growth_rate) 0
    <= nth (idx v)
           (retirement_fvs monthly_deposit salary_sacrifice current_tax
              retirement_age growth_rate) 0.
Proof.
  intros md ss ct ra g v Hmd Hg Hra.
  rewrite fvs_less_at_age_nth, fvs_less_nth, fvs_nth, growth_only_closed.
  replace (10 * 12)%Z with (Z.of_nat 120) by reflexivity.
  replace (ra * 12)%Z with ((ra - 10) * 12 + Z.of_nat 120)%Z by lia.
  apply balance_growth_le; [lra | | lia].
  apply deposits_nonneg. exact Hmd.
Qed.

(** * The properties at concrete inputs *)

Lemma powerRZ_one (x : R) : powerRZ x 1 = x.
Proof. simpl. ring. Qed.

(** At a monthly rate of -2 the three primitives return silently: [fv] and
    [pmt] a number, [nper] NaN. *)
Lemma primitives_silent_at_minus_two :
  -2 < -1
  /\ npf.fv (-2) 1 1 0 = -1
  /\ npf.nper (-2) (-1) 1 0 = NaN
  /\ npf.pmt (-2) 1 1 0 = Fin 1.
Proof.
  split; [lra |].
  split; [| split].
  - rewrite fv_nonzero_rate by lra. rewrite powerRZ_one. lra.
  - apply nper_below_minus_one. lra.
  - rewrite pmt_nonzero_rate by lra. rewrite powerRZ_one.
    unfold np.divide.
    destruct (Req_dec_T _ 0) as [E | _].
    + exfalso. lra.
    + f_equal. lra.
Qed.

Lemma primitives_below_minus_one_witness :
  -2 < -1 /\ (forall pmt pv fv : R, npf.nper (-2) pmt pv fv = NaN).
Proof.
  split; [lra |].
  destruct (proj1 primitives_below_minus_one (-2)) as (_ & H & _);
    [lra | exact H].
Defined.



Lemma truncated_schedule_witness :
  ((5 <= 10)%Z
   /\ schedule_10_years_less_df 200 No BRT BRT 5 5 200 5 20 = None)
  /\ ((10 < 20)%Z
      /\ length (accumulation_10_years_less_df 200 No BRT 20 5) = 120%nat
      /\ length (accumulation_10_years_growth_df 200 No BRT 20 5) = 120%nat).
Proof.
  split.
  - split; [lia |].
    apply (proj1 (truncated_schedule 200 No BRT BRT 5 5 200 5 20)). lia.
  - split; [lia |].
    destruct (proj2 (truncated_schedule 200 No BRT BRT 20 5 200 5 20))
      as (_ & H1 & _ & H2 & _); [lia |].
    split; [exact H1 | exact H2].
Defined.

Lemma balance_recurrence_witness :
  exists prev cur,
    nth_error (schedule_df 200 No BRT BRT 1 5 200 5 1) 11 = Some prev
    /\ nth_error (schedule_df 200 No BRT BRT 1 5 200 5 1) 12 = Some cur
    /\ follows ISA prev cur.
Proof.
  eexists. eexists.
  split; [reflexivity |]. split; [reflexivity |].
  apply (proj1 (balance_recurrence 200 No BRT BRT 1 5 200 5 1 ISA) 11%nat);
    reflexivity.
Defined.

Lemma terminal_value_monotone_witness :
  (0 <= 200)%Z /\ 0 <= 5 /\ (0 <= 20 <= 30)%Z
  /\ nth (idx ISA) (retirement_fvs 200 No BRT 20 5) 0
     <= nth (idx ISA) (retirement_fvs 200 No BRT 30 5) 0.
Proof.
  split; [lia |]. split; [lra |]. split; [lia |].
  apply terminal_value_monotone; [lia | lra | lia].
Defined.

Lemma month_index_continuous_witness :
  (0 <= 1)%Z
  /\ exists r,
      nth_error (schedule_df 200 No BRT BRT 1 5 200 5 1) 12 = Some r
      /\ Month r = 13%Z.
Proof.
  split; [lia |].
  eexists. split; [reflexivity |].
  apply (proj1 (month_index_continuous 200 No BRT BRT 1 5 200 5 1
                  ltac:(lia)) 12%nat).
  reflexivity.
Defined.

(** A deposit of 1 for one year without growth, then a withdrawal of 100 a
    month: the ISA balance of the first drawdown month is -88. *)
Lemma drawdown_balance_negative :
  exists r,
    nth_error (schedule_df 1 No BRT BRT 1 0 100 0 1) 12 = Some r
    /\ In r (drawdown_df 1 No BRT BRT 1 0 100 0 1)
    /\ fund_of ISA r = -88
    /\ ~ 0 <= fund_of ISA r.
Proof.
  eexists. split; [reflexivity |].
  split; [left; reflexivity |].
  split; cbn; rewrite !fv_zero_rate by lra; lra.
Qed.

Lemma sign_convention_witness :
  (1 <= 200)%Z /\ 0 <= 5 /\ (1 <= 200)%Z /\ 0 <= 5
  /\ (forall r v,
         In r (accumulation_df 200 No BRT 20 5) ->
         Net_take_home r < 0 /\ 0 < deposit_of v r /\ 0 <= fund_of v r).
Proof.
  split; [lia |]. split; [lra |]. split; [lia |]. split; [lra |].
  apply (proj1 (sign_convention 200 No BRT BRT 20 5 200 5 20
                  ltac:(lia) ltac:(lra) ltac:(lia) ltac:(lra))).
Defined.

Lemma truncated_terminal_le_full_witness :
  (0 <= 200)%Z /\ 0 <= 5 /\ (10 < 20)%Z
  /\ nth (idx LISA)
         (retirement_fvs_10_years_less_at_age 200 No BRT 20 5) 0
     <= nth (idx LISA) (retirement_fvs 200 No BRT 20 5) 0.
Proof.
  split; [lia |]. split; [lra |]. split; [lia |].
  apply truncated_terminal_le_full; [lia | lra | lia].
Defined.

(** * Further properties of the script *)

(** ** Deposits and terminal values *)

(** The balance built from nothing is proportional to the payment. *)
Lemma balance_linear (rate d : R) (n : Z) :
  - npf.fv rate n d 0 = d * (- npf.fv rate n 1 0).
Proof.
  unfold npf.fv, npf.when_end.
  destruct (Req_dec_T rate 0) as [E | NE].
  - ring.
  - field. exact NE.
Qed.

(** A larger payment gives a larger balance. *)
Lemma balance_mono_pmt (rate pmt pmt' pv : R) (n : Z) :
  0 <= rate -> pmt <= pmt' -> (0 <= n)%Z ->
  - npf.fv rate n pmt pv <= - npf.fv rate n pmt' pv.
Proof.
  intros Hr Hp Hn. rewrite <- (Z2Nat.id n Hn).
  induction (Z.to_nat n) as [| k IH].
  - change (Z.of_nat 0) with 0%Z. rewrite !balance_zero. apply Rle_refl.
  - rewrite Nat2Z.inj_succ. unfold Z.succ.
    rewrite !balance_step by lia. nra.
Qed.

(** A larger rate gives a larger balance. *)
Lemma balance_mono_rate (rate rate' pmt : R) (n : Z) :
  0 <= rate <= rate' -> 0 <= pmt -> (0 <= n)%Z ->
  - npf.fv rate n pmt 0 <= - npf.fv rate' n pmt 0.
Proof.
  intros Hr Hp Hn. rewrite <- (Z2Nat.id n Hn).
  induction (Z.to_nat n) as [| k IH].
  - change (Z.of_nat 0) with 0%Z. rewrite !balance_zero. apply Rle_refl.
  - rewrite Nat2Z.inj_succ. unfold Z.succ.
    rewrite !balance_step by lia.
    assert (H0 : 0 <= - npf.fv rate (Z.of_nat k) pmt 0)
      by (apply balance_nonneg; [lra | lra | lra | lia]).
    nra.
Qed.

(** The balance is at least the payments made. *)
Lemma balance_ge_payments (rate pmt : R) (n : Z) :
  0 <= rate -> 0 <= pmt -> (0 <= n)%Z ->
  pmt * IZR n <= - npf.fv rate n pmt 0.
Proof.
  intros Hr Hp Hn. rewrite <- (Z2Nat.id n Hn).
  induction (Z.to_nat n) as [| k IH].
  - change (Z.of_nat 0) with 0%Z. rewrite balance_zero. lra.
  - rewrite Nat2Z.inj_succ. unfold Z.succ.
    rewrite balance_step, plus_IZR by lia.
    assert (H0 : 0 <= pmt * IZR (Z.of_nat k)).
    { apply Rmult_le_pos; [exact Hp | apply IZR_le; lia]. }
    nra.
Qed.

Lemma deposits_chain (monthly_deposit : Z) (salary_sacrifice : YesNo)
      (current_tax : TaxBand) :
  (0 <= monthly_deposit)%Z ->
  IZR monthly_deposit <= lisa_monthly_deposit monthly_deposit
  /\ lisa_monthly_deposit monthly_deposit
     <= pension_monthly_net_deposit monthly_deposit salary_sacrifice
          current_tax.
Proof.
  intros Hmd. apply IZR_le in Hmd.
  unfold lisa_monthly_deposit, pension_monthly_net_deposit,
    brt_tax_rate, brt_ni_rate, hrt_tax_rate, hrt_ni_rate.
  split; [lra |].
  destruct current_tax, salary_sacrifice; cbn; lra.
Qed.

(** X1. For a deposit of at least 0 the gross deposits are ordered: ISA, then
    LISA, then pension.  For a deposit of at least 1 the pension deposit
    equals the LISA deposit exactly for a basic-rate payer without salary
    sacrifice. *)
Theorem deposits_ordered :
  forall (monthly_deposit : Z) (salary_sacrifice : YesNo)
         (current_tax : TaxBand),
    (0 <= monthly_deposit)%Z ->
    IZR monthly_deposit <= lisa_monthly_deposit monthly_deposit
    /\ lisa_monthly_deposit monthly_deposit
       <= pension_monthly_net_deposit monthly_deposit salary_sacrifice
            current_tax
    /\ ((1 <= monthly_deposit)%Z ->
        (pension_monthly_net_deposit monthly_deposit salary_sacrifice
           current_tax = lisa_monthly_deposit monthly_deposit
         <-> current_tax = BRT /\ salary_sacrifice = No)).
Proof.
  intros md ss ct Hmd.
  destruct (deposits_chain md ss ct Hmd) as [H1 H2].
  split; [exact H1 |]. split; [exact H2 |].
  clear H1 H2. intros H1. apply IZR_le in H1.
  unfold lisa_monthly_deposit, pension_monthly_net_deposit,
    brt_tax_rate, brt_ni_rate, hrt_tax_rate, hrt_ni_rate.
  destruct ct, ss; cbn; split;
    try (intros [? ?]; discriminate);
    try (intros H; exfalso; lra);
    try (intros _; split; reflexivity);
    try (intros _; lra).
Qed.

Lemma deposits_ordered_witness :
  (0 <= 200)%Z
  /\ lisa_monthly_deposit 200 <= pension_monthly_net_deposit 200 Yes HRT.
Proof.
  split; [lia |].
  destruct (deposits_ordered 200 Yes HRT) as (_ & H & _); [lia | exact H].
Defined.

(** X2. The fund of each vehicle at retirement is proportional to its gross
    deposit, and with non-negative deposit, growth rate and years the funds
    are ordered ISA, LISA, pension. *)
Theorem retirement_fvs_proportional :
  forall (monthly_deposit : Z) (salary_sacrifice : YesNo)
         (current_tax : TaxBand) (retirement_age : Z) (growth_rate : R),
    (0 <= monthly_deposit)%Z -> 0 <= growth_rate ->
    (0 <= retirement_age)%Z ->
    let fvs :=
      retirement_fvs monthly_deposit salary_sacrifice current_tax
        retirement_age growth_rate in
    let deposits :=
      monthly_deposits monthly_deposit salary_sacrifice current_tax in
    (forall v w,
        nth (idx v) fvs 0 * nth (idx w) deposits 0
        = nth (idx w) fvs 0 * nth (idx v) deposits 0)
    /\ nth (idx ISA) fvs 0 <= nth (idx LISA) fvs 0
    /\ nth (idx LISA) fvs 0 <= nth (idx pension) fvs 0.
Proof.
  intros md ss ct ra g Hmd Hg Hra fvs deposits.
  destruct (deposits_chain md ss ct Hmd) as [H1 H2].
  split.
  - intros v w. unfold fvs, deposits. rewrite !fvs_nth.
    rewrite (balance_linear _ (nth (idx v) _ 0)).
    rewrite (balance_linear _ (nth (idx w) _ 0)). ring.
  - unfold fvs. rewrite !fvs_nth. cbn [idx nth monthly_deposits].
    split; (apply balance_mono_pmt; [lra | assumption | lia]).
Qed.

Lemma retirement_fvs_proportional_witness :
  (0 <= 200)%Z /\ 0 <= 5 /\ (0 <= 20)%Z
  /\ nth (idx LISA) (retirement_fvs 200 No HRT 20 5) 0
     <= nth (idx pension) (retirement_fvs 200 No HRT 20 5) 0.
Proof.
  split; [lia |]. split; [lra |]. split; [lia |].
  destruct (retirement_fvs_proportional 200 No HRT 20 5)
    as (_ & _ & H); [lia | lra | lia | exact H].
Defined.

(** X3. Stopping all deposits ten years early leaves the proportions between
    the three funds at retirement unchanged. *)
Theorem relative_benefits_consistent :
  forall (monthly_deposit : Z) (salary_sacrifice : YesNo)
         (current_tax : TaxBand) (retirement_age : Z) (growth_rate : R)
         (v w : Vehicle),
    nth (idx v)
        (retirement_fvs_10_years_less_at_age monthly_deposit salary_sacrifice
           current_tax retirement_age growth_rate) 0
    * nth (idx w)
          (retirement_fvs monthly_deposit salary_sacrifice current_tax
             retirement_age growth_rate) 0
    = nth (idx w)
          (retirement_fvs_10_years_less_at_age monthly_deposit
             salary_sacrifice current_tax retirement_age growth_rate) 0
      * nth (idx v)
            (retirement_fvs monthly_deposit salary_sacrifice current_tax
               retirement_age growth_rate) 0.
Proof.
  intros md ss ct ra g v w.
  rewrite !fvs_less_at_age_nth, !fvs_less_nth, !fvs_nth, !growth_only_closed.
  rewrite (balance_linear _ (nth (idx v) _ 0) ((ra - 10) * 12)).
  rewrite (balance_linear _ (nth (idx w) _ 0) ((ra - 10) * 12)).
  rewrite (balance_linear _ (nth (idx v) _ 0) (ra * 12)).
  rewrite (balance_linear _ (nth (idx w) _ 0) (ra * 12)).
  ring.
Qed.

(** X4. Without growth the fund at retirement is the gross deposit times the
    number of months, and the fund with deposits stopping ten years early is
    the gross deposit times the months of its contribution phase. *)
Theorem zero_growth_funds :
  forall (monthly_deposit : Z) (salary_sacrifice : YesNo)
         (current_tax : TaxBand) (retirement_age : Z) (v : Vehicle),
    let d :=
      nth (idx v)
          (monthly_deposits monthly_deposit salary_sacrifice current_tax) 0 in
    nth (idx v)
        (retirement_fvs monthly_deposit salary_sacrifice current_tax
           retirement_age 0) 0
    = d * IZR (retirement_age * 12)
    /\ nth (idx v)
           (retirement_fvs_10_years_less_at_age monthly_deposit
              salary_sacrifice current_tax retirement_age 0) 0
       = d * IZR ((retirement_age - 10) * 12).
Proof.
  intros md ss ct ra v d.
  rewrite fvs_less_at_age_nth, fvs_less_nth, fvs_nth.
  rewrite !fv_zero_rate by lra. fold d.
  split; ring.
Qed.

(** X5. With non-negative deposit and growth rate, the balance in every
    accumulation row is at least the deposits paid in so far. *)
Theorem accumulation_fund_covers_deposits :
  forall (monthly_deposit : Z) (salary_sacrifice : YesNo)
         (current_tax : TaxBand) (retirement_age : Z) (growth_rate : R)
         (v : Vehicle) (r : Row),
    (0 <= monthly_deposit)%Z -> 0 <= growth_rate ->
    In r (accumulation_df monthly_deposit salary_sacrifice current_tax
            retirement_age growth_rate) ->
    deposit_of v r * IZR (Month r) <= fund_of v r.
Proof.
  intros md ss ct ra g v r Hmd Hg Hr.
  rewrite accumulation_df_indexed in Hr.
  apply In_map_seq in Hr as (k & _ & ->).
  rewrite fund_of_mk_row, deposit_of_mk_row. cbn [Month mk_row].
  replace (nth (idx v) [0; 0; 0] 0) with 0 by (destruct v; reflexivity).
  apply balance_ge_payments; [lra | | lia].
  apply (deposits_nonneg md ss ct v Hmd).
Qed.

Lemma accumulation_fund_covers_deposits_witness :
  exists r,
    (0 <= 200)%Z /\ 0 <= 5
    /\ In r (accumulation_df 200 No BRT 1 5)
    /\ deposit_of ISA r * IZR (Month r) <= fund_of ISA r.
Proof.
  eexists. split; [lia |]. split; [lra |].
  split; [left; reflexivity |].
  apply (accumulation_fund_covers_deposits 200 No BRT 1 5 ISA);
    [lia | lra | left; reflexivity].
Defined.

(** X6. With non-negative deposit and years, a higher non-negative growth
    rate never gives a smaller fund at retirement. *)
Theorem terminal_value_monotone_in_growth :
  forall (monthly_deposit : Z) (salary_sacrifice : YesNo)
         (current_tax : TaxBand) (retirement_age : Z)
         (growth_rate growth_rate' : R) (v : Vehicle),
    (0 <= monthly_deposit)%Z -> (0 <= retirement_age)%Z ->
    0 <= growth_rate <= growth_rate' ->
    nth (idx v)
        (retirement_fvs monthly_deposit salary_sacrifice current_tax
           retirement_age growth_rate) 0
    <= nth (idx v)
           (retirement_fvs monthly_deposit salary_sacrifice current_tax
              retirement_age growth_rate') 0.
Proof.
  intros md ss ct ra g g' v Hmd Hra Hg.
  rewrite !fvs_nth.
  apply balance_mono_rate; [lra | | lia].
  apply (deposits_nonneg md ss ct v Hmd).
Qed.

Lemma terminal_value_monotone_in_growth_witness :
  (0 <= 200)%Z /\ (0 <= 20)%Z /\ 0 <= 3 <= 5
  /\ nth (idx ISA) (retirement_fvs 200 No BRT 20 3) 0
     <= nth (idx ISA) (retirement_fvs 200 No BRT 20 5) 0.
Proof.
  split; [lia |]. split; [lia |]. split; [lra |].
  apply terminal_value_monotone_in_growth; [lia | lia | lra].
Defined.

(** ** The fixed-duration payment *)

Lemma powerRZ_gt_1 (x : R) (n : Z) : 1 < x -> (1 <= n)%Z -> 1 < powerRZ x n.
Proof.
  intros Hx Hn. rewrite <- (Z2Nat.id n) by lia.
  rewrite <- pow_powerRZ. apply Rlt_pow_R1; [exact Hx | lia].
Qed.

(** The factor by which [pmt] multiplies the fund. *)
Lemma pmt_proportional (rate : R) (n : Z) :
  0 <= rate -> (1 <= n)%Z ->
  exists k,
    0 < k
    /\ forall pv,
        np.negative (npf.pmt rate n pv 0) = Fin (pv * k)
        /\ - npf.fv rate n (- (pv * k)) pv = 0.
Proof.
  intros Hr Hn. unfold npf.pmt, npf.when_end.
  assert (Hn' : 1 <= IZR n) by (apply IZR_le; exact Hn).
  destruct (Req_dec_T rate 0) as [E | NE].
  - subst rate. exists (/ IZR n).
    split; [apply Rinv_0_lt_compat; lra |].
    intros pv. unfold np.divide.
    destruct (Req_dec_T (IZR n) 0) as [E0 | _]; [lra |].
    rewrite Rplus_0_r, powerRZ_R1. cbn [np.negative].
    split; [f_equal; field; lra |].
    rewrite fv_zero_rate by reflexivity. field. lra.
  - assert (Hrate : 0 < rate) by lra.
    pose proof (powerRZ_gt_1 (1 + rate) n ltac:(lra) Hn) as Htemp.
    set (temp := powerRZ (1 + rate) n) in *.
    exists (temp * rate / (temp - 1)).
    split.
    { apply Rdiv_lt_0_compat; [| lra].
      apply Rmult_lt_0_compat; lra. }
    intros pv. unfold np.divide.
    destruct (Req_dec_T ((1 + rate * 0) * (temp - 1) / rate) 0) as [E0 | _].
    { exfalso.
      assert (H : 0 < (1 + rate * 0) * (temp - 1) / rate).
      { apply Rdiv_lt_0_compat; [| exact Hrate]. nra. }
      lra. }
    cbn [np.negative].
    split; [f_equal; field; lra |].
    rewrite fv_nonzero_rate by exact NE. fold temp. field. lra.
Qed.

(** X7. With a non-negative growth rate in retirement and at least one year
    of drawdown, every fixed-duration payment is a number, never NaN or
    infinite.  For each vehicle there is a gross monthly payment that brings
    the fund to exactly 0 after [retirement_duration * 12] months; the figure
    for LISA and ISA is that payment, and the figure for the pension is a
    quarter of it untaxed plus three quarters taxed at the retirement rate. *)
Theorem withdrawal_pmt_depletes_fund :
  forall (monthly_deposit : Z) (salary_sacrifice : YesNo)
         (current_tax retirement_tax : TaxBand) (retirement_age : Z)
         (growth_rate : R) (retirement_growth_rate : R)
         (retirement_duration : Z) (v : Vehicle),
    0 <= retirement_growth_rate -> (1 <= retirement_duration)%Z ->
    exists gross,
      - npf.fv (retirement_growth_rate / 100 / 12) (retirement_duration * 12)
          (- gross)
          (nth (idx v)
               (retirement_fvs monthly_deposit salary_sacrifice current_tax
                  retirement_age growth_rate) 0)
      = 0
      /\ nth (idx v)
             (retirement_withdrawal_pmt monthly_deposit salary_sacrifice
                current_tax retirement_tax retirement_age growth_rate
                retirement_growth_rate retirement_duration) NaN
         = Fin match v with
               | pension =>
                   gross * 0.25
                   + gross * 0.75 * (1 - retirement_tax_const retirement_tax)
               | LISA | ISA => gross
               end.
Proof.
  intros md ss ct rt ra g rg rd v Hrg Hrd.
  destruct (pmt_proportional (rg / 100 / 12) (rd * 12)) as (k & _ & Hk);
    [lra | lia |].
  exists (nth (idx v) (retirement_fvs md ss ct ra g) 0 * k).
  split; [apply Hk |].
  unfold retirement_withdrawal_pmt, withdrawal_pmt, retirement_fvs,
    monthly_deposits.
  cbn [map].
  destruct v; cbn [idx nth]; rewrite (proj1 (Hk _)); [| reflexivity ..].
  unfold pension_after_tax, retirement_tax_const.
  destruct rt; reflexivity.
Qed.

Lemma withdrawal_pmt_depletes_fund_witness :
  0 <= 5 /\ (1 <= 20)%Z
  /\ exists gross,
      - npf.fv (5 / 100 / 12) (20 * 12) (- gross)
          (nth (idx ISA) (retirement_fvs 200 No BRT 20 5) 0) = 0
      /\ nth (idx ISA) (retirement_withdrawal_pmt 200 No BRT BRT 20 5 5 20) NaN
         = Fin gross.
Proof.
  split; [lra |]. split; [lia |].
  apply (withdrawal_pmt_depletes_fund 200 No BRT BRT 20 5 5 20 ISA);
    [lra | lia].
Defined.

(** X8. Taxing the gross pension withdrawal the way the payment figure is
    taxed gives back the desired net withdrawal: the two pension tax
    computations of the script are inverse to each other. *)
Theorem pension_gross_up_round_trip :
  forall (retirement_tax : TaxBand) (retirement_monthly_withdrawal : Z),
    pension_after_tax retirement_tax
      (Fin (pension_monthly_net_withdrawal retirement_tax
              retirement_monthly_withdrawal))
    = Fin (IZR retirement_monthly_withdrawal).
Proof.
  intros rt w.
  unfold pension_after_tax, pension_monthly_net_withdrawal,
    brt_tax_rate, hrt_tax_rate.
  destruct rt; cbn [TaxBand_eqb]; apply f_equal; lra.
Qed.

(** X10. With a non-negative growth rate in retirement and at least one year
    of drawdown, the fixed-duration payments are the funds at retirement
    times one common positive factor, the pension payment being further
    multiplied by [1 - 0.75 * tax].  So the LISA pays 1.25 times the ISA
    whatever the rates and horizons. *)
Theorem withdrawal_pmt_proportional :
  forall (monthly_deposit : Z) (salary_sacrifice : YesNo)
         (current_tax retirement_tax : TaxBand) (retirement_age : Z)
         (growth_rate : R) (retirement_growth_rate : R)
         (retirement_duration : Z),
    0 <= retirement_growth_rate -> (1 <= retirement_duration)%Z ->
    let fvs :=
      retirement_fvs monthly_deposit salary_sacrifice current_tax
        retirement_age growth_rate in
    let pmts :=
      retirement_withdrawal_pmt monthly_deposit salary_sacrifice current_tax
        retirement_tax retirement_age growth_rate retirement_growth_rate
        retirement_duration in
    exists k isa,
      0 < k
      /\ isa = nth (idx ISA) fvs 0 * k
      /\ nth (idx ISA) pmts NaN = Fin isa
      /\ nth (idx LISA) pmts NaN = Fin (1.25 * isa)
      /\ nth (idx pension) pmts NaN
         = Fin (nth (idx pension) fvs 0 * k
                * (1 - 0.75 * retirement_tax_const retirement_tax)).
Proof.
  intros md ss ct rt ra g rg rd Hrg Hrd fvs pmts.
  destruct (pmt_proportional (rg / 100 / 12) (rd * 12)) as (k & Hk0 & Hk);
    [lra | lia |].
  exists k, (nth (idx ISA) fvs 0 * k).
  split; [exact Hk0 |]. split; [reflexivity |].
  unfold pmts, fvs, retirement_withdrawal_pmt, withdrawal_pmt, retirement_fvs,
    monthly_deposits.
  cbn [map idx nth]. rewrite !(proj1 (Hk _)).
  split; [reflexivity |].
  split.
  - f_equal. rewrite (balance_linear _ (lisa_monthly_deposit md)).
    rewrite (balance_linear _ (IZR md)).
    unfold lisa_monthly_deposit. field.
  - unfold pension_after_tax, retirement_tax_const.
    destruct rt; cbn [TaxBand_eqb]; apply f_equal;
      unfold brt_tax_rate, hrt_tax_rate;
      set (y := - npf.fv _ _ _ _ * k); lra.
Qed.

Lemma withdrawal_pmt_proportional_witness :
  0 <= 5 /\ (1 <= 20)%Z
  /\ exists k isa,
      0 < k
      /\ nth (idx ISA) (retirement_withdrawal_pmt 200 No BRT BRT 20 5 5 20) NaN
         = Fin isa
      /\ nth (idx LISA) (retirement_withdrawal_pmt 200 No BRT BRT 20 5 5 20) NaN
         = Fin (1.25 * isa).
Proof.
  split; [lra |]. split; [lia |].
  destruct (withdrawal_pmt_proportional 200 No BRT BRT 20 5 5 20)
    as (k & isa & H0 & _ & H1 & H2 & _); [lra | lia |].
  exists k, isa. split; [exact H0 |]. split; [exact H1 | exact H2].
Defined.

(** ** Durations and the drawdown rows *)

(** While the withdrawal exceeds the monthly yield, the balance falls as time
    passes, also between whole months. *)
Lemma fv_float_decreasing (rate pay pv s t : R) :
  0 <= rate -> pv * rate < pay -> s < t ->
  - npf.fv_float rate t (- pay) pv < - npf.fv_float rate s (- pay) pv.
Proof.
  intros Hr Hy Hst. unfold npf.fv_float, npf.when_end.
  destruct (Req_dec_T rate 0) as [E | NE].
  - subst rate. nra.
  - assert (Hrate : 0 < rate) by lra.
    assert (Hpow : Rpower (1 + rate) s < Rpower (1 + rate) t)
      by (apply Rpower_lt; lra).
    replace (- pay * (1 + rate * 0) / rate) with (- (pay / rate))
      by (field; exact NE).
    assert (Hq : pv < pay / rate).
    { apply (Rmult_lt_reg_r rate); [exact Hrate |].
      replace (pay / rate * rate) with pay by (field; exact NE). exact Hy. }
    set (q := pay / rate) in *. nra.
Qed.

(** While the monthly yield covers the withdrawal, the balance never falls
    below the starting fund. *)
Lemma balance_sustained (rate pay pv : R) (n : Z) :
  0 <= rate -> pv * rate >= pay -> (0 <= n)%Z ->
  pv <= - npf.fv rate n (- pay) pv.
Proof.
  intros Hr Hy Hn. rewrite <- (Z2Nat.id n Hn).
  induction (Z.to_nat n) as [| k IH].
  - change (Z.of_nat 0) with 0%Z. rewrite balance_zero. apply Rle_refl.
  - rewrite Nat2Z.inj_succ. unfold Z.succ.
    rewrite balance_step by lia. nra.
Qed.

(** The balance of a drawdown month against the computed duration. *)
Lemma drawdown_sign (rate pay pv n : R) (m : Z) :
  0 <= rate -> 0 < pay -> 0 <= pv -> pv * rate < pay ->
  np.abs (npf.nper rate (- pay) pv 0) = Fin n ->
  (0 <= m)%Z ->
  (0 <= - npf.fv rate m (- pay) pv <-> IZR m <= n).
Proof.
  intros Hr Hpay Hpv Hy Hn Hm.
  destruct (nper_finite rate pay pv Hr Hpay Hpv Hy) as (n' & Hn' & _ & Hzero).
  assert (n' = n) by congruence. subst n'.
  rewrite <- (fv_float_whole rate (- pay) pv m) by lra.
  split.
  - intros Hpos. apply Rnot_lt_le. intros Hlt.
    pose proof (fv_float_decreasing rate pay pv n (IZR m) Hr Hy Hlt). lra.
  - intros [Hlt | Heq].
    + pose proof (fv_float_decreasing rate pay pv (IZR m) n Hr Hy Hlt). lra.
    + rewrite Heq, Hzero. lra.
Qed.

(** X9. Withdrawing the fixed-duration payment lasts exactly the chosen
    duration: for a positive fund, a non-negative rate and at least one
    period, [pmt] gives a number [p], and [nper] for the withdrawal [p] gives
    back the number of periods. *)
Theorem nper_of_pmt :
  forall (rate pv : R) (n : Z),
    0 <= rate -> 0 < pv -> (1 <= n)%Z ->
    exists p,
      np.negative (npf.pmt rate n pv 0) = Fin p
      /\ 0 < p
      /\ np.abs (npf.nper rate (- p) pv 0) = Fin (IZR n).
Proof.
  intros rate pv n Hr Hpv Hn.
  destruct (pmt_proportional rate n Hr Hn) as (k & Hk0 & Hk).
  destruct (Hk pv) as [Hp Hzero].
  exists (pv * k).
  assert (Hpos : 0 < pv * k) by (apply Rmult_lt_0_compat; assumption).
  split; [exact Hp |]. split; [exact Hpos |].
  assert (Hy : pv * rate < pv * k).
  { apply Rnot_le_lt. intros Hge.
    pose proof (balance_sustained rate (pv * k) pv n Hr
                  (Rle_ge _ _ Hge) ltac:(lia)).
    lra. }
  destruct (nper_finite rate (pv * k) pv Hr Hpos (Rlt_le _ _ Hpv) Hy)
    as (n' & Hn' & _ & Hzero').
  rewrite Hn'. f_equal.
  rewrite <- (fv_float_whole rate (- (pv * k)) pv n) in Hzero by lra.
  destruct (Rtotal_order n' (IZR n)) as [Hlt | [Heq | Hgt]];
    [| exact Heq |].
  - pose proof (fv_float_decreasing rate (pv * k) pv n' (IZR n) Hr Hy Hlt).
    lra.
  - pose proof (fv_float_decreasing rate (pv * k) pv (IZR n) n' Hr Hy Hgt).
    lra.
Qed.

Lemma nper_of_pmt_witness :
  0 <= 1 / 240 /\ 0 < 1000 /\ (1 <= 240)%Z
  /\ exists p,
      np.negative (npf.pmt (1 / 240) 240 1000 0) = Fin p
      /\ 0 < p
      /\ np.abs (npf.nper (1 / 240) (- p) 1000 0) = Fin (IZR 240).
Proof.
  split; [lra |]. split; [lra |]. split; [lia |].
  apply nper_of_pmt; [lra | lra | lia].
Defined.

(** Without growth in retirement [nper] takes its zero-rate branch. *)
Lemma durations_zero_rate
      (monthly_deposit : Z) (salary_sacrifice : YesNo)
      (current_tax retirement_tax : TaxBand) (retirement_age : Z)
      (growth_rate : R) (retirement_monthly_withdrawal : Z) (v : Vehicle) :
  (1 <= monthly_deposit)%Z -> (0 <= retirement_age)%Z ->
  0 <= growth_rate -> (1 <= retirement_monthly_withdrawal)%Z ->
  nth (idx v)
      (retirement_withdrawal_durations monthly_deposit salary_sacrifice
         current_tax retirement_tax retirement_age growth_rate
         retirement_monthly_withdrawal 0) NaN
  = Fin (nth (idx v)
             (retirement_fvs monthly_deposit salary_sacrifice current_tax
                retirement_age growth_rate) 0
         / - nth (idx v)
                 (monthly_withdrawals retirement_tax
                    retirement_monthly_withdrawal) 0).
Proof.
  intros Hmd Hra Hg Hw.
  pose proof (withdrawals_negative retirement_tax
                retirement_monthly_withdrawal v Hw) as Hneg.
  assert (Hpv : 0 <= nth (idx v)
                         (retirement_fvs monthly_deposit salary_sacrifice
                            current_tax retirement_age growth_rate) 0).
  { rewrite fvs_nth.
    pose proof (deposits_positive monthly_deposit salary_sacrifice
                  current_tax v Hmd).
    apply balance_nonneg; [lra | lra | lra | lia]. }
  rewrite durations_nth.
  set (pv := nth (idx v) (retirement_fvs _ _ _ _ _) 0) in *.
  set (pay := nth (idx v) (monthly_withdrawals _ _) 0) in *.
  unfold npf.nper, npf.when_end.
  destruct (Req_dec_T (0 / 100 / 12) 0) as [_ | NE]; [| exfalso; lra].
  destruct (Req_dec_T (pay * (1 + 0 / 100 / 12 * 0)) 0) as [E | _];
    [exfalso; lra |].
  unfold np.divide.
  destruct (Req_dec_T pay 0) as [E | _]; [lra |].
  cbn [np.abs]. f_equal.
  replace ((- 0 + pv) / pay) with (- (pv / - pay)) by (field; lra).
  rewrite Rabs_Ropp. apply Rabs_pos_eq.
  apply Rmult_le_pos; [exact Hpv | left; apply Rinv_0_lt_compat; lra].
Qed.

(** X11. Without growth in retirement the duration is the fund divided by the
    gross withdrawal, a finite number of months: it is never written as
    "Forever", also when the withdrawal is below the monthly deposit. *)
Theorem zero_growth_duration :
  forall (monthly_deposit : Z) (salary_sacrifice : YesNo)
         (current_tax retirement_tax : TaxBand) (retirement_age : Z)
         (growth_rate : R) (retirement_monthly_withdrawal : Z) (v : Vehicle),
    (1 <= monthly_deposit)%Z -> (0 <= retirement_age)%Z ->
    0 <= growth_rate -> (1 <= retirement_monthly_withdrawal)%Z ->
    let d :=
      nth (idx v)
          (retirement_withdrawal_durations monthly_deposit salary_sacrifice
             current_tax retirement_tax retirement_age growth_rate
             retirement_monthly_withdrawal 0) NaN in
    d = Fin (nth (idx v)
                 (retirement_fvs monthly_deposit salary_sacrifice current_tax
                    retirement_age growth_rate) 0
             / - nth (idx v)
                     (monthly_withdrawals retirement_tax
                        retirement_monthly_withdrawal) 0)
    /\ duration_text d <> Forever.
Proof.
  intros md ss ct rt ra g w v Hmd Hra Hg Hw d.
  pose proof (durations_zero_rate md ss ct rt ra g w v Hmd Hra Hg Hw) as Hd.
  fold d in Hd.
  split; [exact Hd |]. rewrite Hd. discriminate.
Qed.

Lemma zero_growth_duration_witness :
  (1 <= 200)%Z /\ (0 <= 20)%Z /\ 0 <= 5 /\ (1 <= 100)%Z
  /\ duration_text
       (nth (idx ISA)
            (retirement_withdrawal_durations 200 No BRT BRT 20 5 100 0) NaN)
     <> Forever.
Proof.
  split; [lia |]. split; [lia |]. split; [lra |]. split; [lia |].
  apply (zero_growth_duration 200 No BRT BRT 20 5 100 ISA);
    [lia | lia | lra | lia].
Defined.

(** X23. When the withdrawal is below the monthly deposit, which is when the
    script warns that withdrawals could go on indefinitely whatever the
    growth, and there is no growth in retirement, the LISA and the ISA last
    a finite number of months that exceeds the months of saving. *)
Theorem withdrawal_below_deposit_outlasts_saving :
  forall (monthly_deposit : Z) (salary_sacrifice : YesNo)
         (current_tax retirement_tax : TaxBand) (retirement_age : Z)
         (growth_rate : R) (retirement_monthly_withdrawal : Z) (v : Vehicle),
    (1 <= retirement_age)%Z -> 0 <= growth_rate ->
    (1 <= retirement_monthly_withdrawal)%Z ->
    withdrawal_warning monthly_deposit retirement_monthly_withdrawal = true ->
    v <> pension ->
    exists n,
      nth (idx v)
          (retirement_withdrawal_durations monthly_deposit salary_sacrifice
             current_tax retirement_tax retirement_age growth_rate
             retirement_monthly_withdrawal 0) NaN
      = Fin n
      /\ IZR (retirement_age * 12) < n.
Proof.
  intros md ss ct rt ra g w v Hra Hg Hw Hwarn Hv.
  unfold withdrawal_warning in Hwarn. apply Z.ltb_lt in Hwarn.
  assert (Hmd : (1 <= md)%Z) by lia.
  eexists. split.
  - apply (durations_zero_rate md ss ct rt ra g w v); [exact Hmd | lia | exact Hg | exact Hw].
  - rewrite fvs_nth.
    assert (Hn : 12 <= IZR (ra * 12)) by (apply IZR_le; lia).
    assert (Hwr : 1 <= IZR w) by (apply IZR_le; exact Hw).
    assert (Hlt : IZR w + 1 <= IZR md).
    { rewrite <- plus_IZR. apply IZR_le. lia. }
    assert (Hdep : IZR md <= nth (idx v) (monthly_deposits md ss ct) 0).
    { destruct v; [contradiction | |]; cbn [idx nth monthly_deposits];
        unfold lisa_monthly_deposit; lra. }
    assert (Hpay : - nth (idx v) (monthly_withdrawals rt w) 0 = IZR w).
    { destruct v; [contradiction | |]; cbn [idx nth monthly_withdrawals];
        ring. }
    rewrite Hpay.
    pose proof (balance_ge_payments (g / 100 / 12)
                  (nth (idx v) (monthly_deposits md ss ct) 0) (ra * 12)
                  ltac:(lra) ltac:(lra) ltac:(lia)) as Hfund.
    apply (Rmult_lt_reg_r (IZR w)); [lra |].
    unfold Rdiv. rewrite Rmult_assoc, Rinv_l, Rmult_1_r by lra.
    nra.
Qed.

Lemma withdrawal_below_deposit_outlasts_saving_witness :
  (1 <= 20)%Z /\ 0 <= 5 /\ (1 <= 100)%Z
  /\ withdrawal_warning 200 100 = true /\ ISA <> pension
  /\ exists n,
      nth (idx ISA)
          (retirement_withdrawal_durations 200 No BRT BRT 20 5 100 0) NaN
      = Fin n
      /\ IZR (20 * 12) < n.
Proof.
  split; [lia |]. split; [lra |]. split; [lia |].
  split; [reflexivity |]. split; [discriminate |].
  apply (withdrawal_below_deposit_outlasts_saving 200 No BRT BRT 20 5 100 ISA);
    [lia | lra | lia | reflexivity | discriminate].
Defined.

Lemma drawdown_df_row
      (monthly_deposit : Z) (salary_sacrifice : YesNo)
      (current_tax retirement_tax : TaxBand) (retirement_age : Z)
      (growth_rate : R) (retirement_monthly_withdrawal : Z)
      (retirement_growth_rate : R) (retirement_duration : Z)
      (v : Vehicle) (r : Row) :
  In r (drawdown_df monthly_deposit salary_sacrifice current_tax
          retirement_tax retirement_age growth_rate
          retirement_monthly_withdrawal retirement_growth_rate
          retirement_duration) ->
  (1 <= Month r - retirement_age * 12)%Z
  /\ fund_of v r
     = - npf.fv (retirement_growth_rate / 100 / 12)
           (Month r - retirement_age * 12)
           (nth (idx v)
                (monthly_withdrawals retirement_tax
                   retirement_monthly_withdrawal) 0)
           (nth (idx v)
                (retirement_fvs monthly_deposit salary_sacrifice current_tax
                   retirement_age growth_rate) 0).
Proof.
  intros Hr. unfold drawdown_df in Hr.
  rewrite drawdown_frame_indexed in Hr.
  apply In_map_seq in Hr as (k & _ & ->).
  rewrite fund_of_mk_row, nth_three by reflexivity.
  cbn [Month mk_row]. split; [lia | reflexivity].
Qed.

(** X12. With inputs in the ranges of the widgets, when the duration of a
    vehicle is a number [n] of months, the balance of that vehicle in a
    drawdown row is non-negative exactly in the rows whose month after
    retirement does not exceed [n]: the duration marks the row where the
    schedule crosses zero. *)
Theorem duration_marks_depletion :
  forall (monthly_deposit : Z) (salary_sacrifice : YesNo)
         (current_tax retirement_tax : TaxBand) (retirement_age : Z)
         (growth_rate : R) (retirement_monthly_withdrawal : Z)
         (retirement_growth_rate : R) (retirement_duration : Z)
         (v : Vehicle) (n : R) (r : Row),
    (1 <= monthly_deposit)%Z -> (0 <= retirement_age)%Z ->
    0 <= growth_rate ->
    (1 <= retirement_monthly_withdrawal)%Z -> 0 <= retirement_growth_rate ->
    nth (idx v)
        (retirement_withdrawal_durations monthly_deposit salary_sacrifice
           current_tax retirement_tax retirement_age growth_rate
           retirement_monthly_withdrawal retirement_growth_rate) NaN
    = Fin n ->
    In r (drawdown_df monthly_deposit salary_sacrifice current_tax
            retirement_tax retirement_age growth_rate
            retirement_monthly_withdrawal retirement_growth_rate
            retirement_duration) ->
    (0 <= fund_of v r <-> IZR (Month r - retirement_age * 12) <= n).
Proof.
  intros md ss ct rt ra g w rg rd v n r Hmd Hra Hg Hw Hrg Hd Hr.
  apply (drawdown_df_row md ss ct rt ra g w rg rd v) in Hr as [Hm ->].
  rewrite durations_nth in Hd.
  pose proof (withdrawals_negative rt w v Hw) as Hneg.
  set (pay := nth (idx v) (monthly_withdrawals rt w) 0) in *.
  set (pv := nth (idx v) (retirement_fvs md ss ct ra g) 0) in *.
  assert (Hpv : 0 <= pv).
  { unfold pv. rewrite fvs_nth.
    pose proof (deposits_positive md ss ct v Hmd).
    apply balance_nonneg; [lra | lra | lra | lia]. }
  replace pay with (- - pay) in Hd |- * by ring.
  assert (Hrate : 0 <= rg / 100 / 12) by lra.
  destruct (Rlt_le_dec (pv * (rg / 100 / 12)) (- pay)) as [Hy | Hy].
  - apply drawdown_sign; [exact Hrate | lra | exact Hpv | exact Hy
                          | exact Hd | lia].
  - rewrite nper_indefinite in Hd by lra. discriminate Hd.
Qed.

Lemma duration_marks_depletion_witness :
  exists n r,
    (1 <= 1)%Z /\ (0 <= 1)%Z /\ 0 <= 0 /\ (1 <= 100)%Z /\ 0 <= 0
    /\ nth (idx ISA)
           (retirement_withdrawal_durations 1 No BRT BRT 1 0 100 0) NaN
       = Fin n
    /\ In r (drawdown_df 1 No BRT BRT 1 0 100 0 1)
    /\ (0 <= fund_of ISA r <-> IZR (Month r - 1 * 12) <= n).
Proof.
  assert (Hd : exists n,
             nth (idx ISA)
                 (retirement_withdrawal_durations 1 No BRT BRT 1 0 100 0) NaN
             = Fin n).
  { rewrite durations_nth.
    destruct (nper_finite (0 / 100 / 12) 100
                (nth (idx ISA) (retirement_fvs 1 No BRT 1 0) 0))
      as (n & Hn & _); [lra | lra | | | ].
    - rewrite fvs_nth. apply balance_nonneg; [lra | cbn; lra | lra | lia].
    - lra.
    - exists n. cbn [idx nth monthly_withdrawals]. exact Hn. }
  destruct Hd as (n & Hn).
  exists n. eexists.
  split; [lia |]. split; [lia |]. split; [lra |]. split; [lia |].
  split; [lra |]. split; [exact Hn |].
  split; [left; reflexivity |].
  apply (duration_marks_depletion 1 No BRT BRT 1 0 100 0 1 ISA n);
    [lia | lia | lra | lia | lra | exact Hn | left; reflexivity].
Defined.

(** X13. With inputs in the ranges of the widgets, when the duration of a
    vehicle is written as "Forever", the balance of that vehicle never falls
    below the fund at retirement in any drawdown row. *)
Theorem forever_fund_sustained :
  forall (monthly_deposit : Z) (salary_sacrifice : YesNo)
         (current_tax retirement_tax : TaxBand) (retirement_age : Z)
         (growth_rate : R) (retirement_monthly_withdrawal : Z)
         (retirement_growth_rate : R) (retirement_duration : Z)
         (v : Vehicle) (r : Row),
    (1 <= monthly_deposit)%Z -> (0 <= retirement_age)%Z ->
    0 <= growth_rate ->
    (1 <= retirement_monthly_withdrawal)%Z -> 0 <= retirement_growth_rate ->
    duration_text
      (nth (idx v)
           (retirement_withdrawal_durations monthly_deposit salary_sacrifice
              current_tax retirement_tax retirement_age growth_rate
              retirement_monthly_withdrawal retirement_growth_rate) NaN)
    = Forever ->
    In r (drawdown_df monthly_deposit salary_sacrifice current_tax
            retirement_tax retirement_age growth_rate
            retirement_monthly_withdrawal retirement_growth_rate
            retirement_duration) ->
    0 <= nth (idx v)
             (retirement_fvs monthly_deposit salary_sacrifice current_tax
                retirement_age growth_rate) 0
      <= fund_of v r.
Proof.
  intros md ss ct rt ra g w rg rd v r Hmd Hra Hg Hw Hrg Hd Hr.
  apply (drawdown_df_row md ss ct rt ra g w rg rd v) in Hr as [Hm ->].
  rewrite durations_nth in Hd.
  pose proof (withdrawals_negative rt w v Hw) as Hneg.
  set (pay := nth (idx v) (monthly_withdrawals rt w) 0) in *.
  set (pv := nth (idx v) (retirement_fvs md ss ct ra g) 0) in *.
  assert (Hpv : 0 <= pv).
  { unfold pv. rewrite fvs_nth.
    pose proof (deposits_positive md ss ct v Hmd).
    apply balance_nonneg; [lra | lra | lra | lia]. }
  split; [exact Hpv |].
  replace pay with (- - pay) in Hd |- * by ring.
  assert (Hrate : 0 <= rg / 100 / 12) by lra.
  destruct (Rlt_le_dec (pv * (rg / 100 / 12)) (- pay)) as [Hy | Hy].
  - destruct (nper_finite _ (- pay) pv Hrate ltac:(lra) Hpv Hy)
      as (n & Hn & _).
    rewrite Hn in Hd. discriminate Hd.
  - apply balance_sustained; [exact Hrate | lra | lia].
Qed.

Lemma forever_fund_sustained_witness :
  exists r,
    (1 <= 200)%Z /\ (0 <= 20)%Z /\ 0 <= 5 /\ (1 <= 1)%Z /\ 0 <= 5
    /\ duration_text
         (nth (idx ISA)
              (retirement_withdrawal_durations 200 No BRT BRT 20 5 1 5) NaN)
       = Forever
    /\ In r (drawdown_df 200 No BRT BRT 20 5 1 5 1)
    /\ 0 <= nth (idx ISA) (retirement_fvs 200 No BRT 20 5) 0 <= fund_of ISA r.
Proof.
  assert (Hd : duration_text
                 (nth (idx ISA)
                      (retirement_withdrawal_durations 200 No BRT BRT 20 5 1 5)
                      NaN) = Forever).
  { rewrite durations_nth, fvs_nth.
    cbn [idx nth monthly_withdrawals monthly_deposits].
    rewrite nper_indefinite; [reflexivity | lra | lra |].
    pose proof (balance_ge_payments (5 / 100 / 12) 200 (20 * 12)
                  ltac:(lra) ltac:(lra) ltac:(lia)) as H.
    change (IZR (20 * 12)) with 240 in H. lra. }
  eexists.
  split; [lia |]. split; [lia |]. split; [lra |]. split; [lia |].
  split; [lra |]. split; [exact Hd |].
  split; [left; reflexivity |].
  apply (forever_fund_sustained 200 No BRT BRT 20 5 1 5 1 ISA);
    [lia | lia | lra | lia | lra | exact Hd | left; reflexivity].
Defined.

(** ** How a duration is written out *)

Lemma format_0f_whole (z : Z) : format_0f (IZR z) = z.
Proof.
  unfold format_0f.
  destruct (Int_part_frac_part_spec (IZR z) z 0) as [Hi Hf]; [lra | lra |].
  rewrite <- Hi, <- Hf.
  destruct (Rlt_dec 0 (1 / 2)) as [_ | N]; [reflexivity | lra].
Qed.

Lemma remainder_one (x : R) : remainder x 1 = frac_part x.
Proof.
  unfold remainder, frac_part. rewrite Rdiv_1_r. ring.
Qed.

(** X14. For a finite duration of [d >= 0] months, the years figure is the
    whole number of years in [d], and the months part before rounding lies in
    [0, 12) and adds up with the years to [d].  The months figure is that part
    rounded to a nearest whole number, so it lies between 0 and 12: it is 12
    whenever the part is above 11.5, and at most 11 whenever the part is below
    11.5. *)
Theorem duration_years_and_months :
  forall d : R,
    0 <= d ->
    let months := remainder (d / 12) 1 * 12 in
    duration_years d = Int_part (d / 12)
    /\ (0 <= duration_years d)%Z
    /\ IZR (duration_years d) * 12 + months = d
    /\ 0 <= months < 12
    /\ (0 <= duration_months d <= 12)%Z
    /\ (11.5 < months -> duration_months d = 12%Z)
    /\ (months < 11.5 -> (duration_months d <= 11)%Z).
Proof.
  intros d Hd months.
  assert (Hy : duration_years d = Int_part (d / 12)).
  { unfold duration_years, floor_divide. apply format_0f_whole. }
  assert (Hm : months = frac_part (d / 12) * 12).
  { unfold months. rewrite remainder_one. reflexivity. }
  destruct (base_fp (d / 12)) as [Hf0 Hf1].
  destruct (base_Int_part (d / 12)) as [Hi0 Hi1].
  assert (Hrange : 0 <= months < 12) by (rewrite Hm; lra).
  split; [exact Hy |].
  split.
  { rewrite Hy. apply le_IZR. apply Rnot_lt_le. intros Hneg.
    assert (H : IZR (Int_part (d / 12)) <= -1).
    { apply IZR_le. apply lt_IZR in Hneg. lia. }
    lra. }
  split.
  { rewrite Hy, Hm. unfold frac_part. field. }
  split; [exact Hrange |].
  enough (Hall : (0 <= duration_months d <= 12)%Z
                 /\ (duration_months d = 12%Z <-> 11.5 <= months)).
  { destruct Hall as [Hb Hiff].
    split; [exact Hb |]. split.
    - intros H. apply Hiff. lra.
    - intros H. destruct (Z.eq_dec (duration_months d) 12) as [E | NE];
        [apply Hiff in E; lra | lia]. }
  unfold duration_months. fold months.
  unfold format_0f.
  destruct (base_fp months) as [Hg0 Hg1].
  destruct (base_Int_part months) as [Hj0 Hj1].
  pose proof (Rplus_Int_part_frac_part months) as Hsum.
  set (j := Int_part months) in *. set (f := frac_part months) in *.
  assert (Hj : (0 <= j <= 11)%Z).
  { split.
    - apply le_IZR. apply Rnot_lt_le. intros Hneg.
      assert (H : IZR j <= -1) by (apply IZR_le; apply lt_IZR in Hneg; lia).
      lra.
    - assert (H : (j < 12)%Z) by (apply lt_IZR; lra). lia. }
  assert (Hj11 : j = 11%Z -> IZR j = 11) by (intros ->; reflexivity).
  assert (Hjle : j <> 11%Z -> IZR j <= 10).
  { intros Hne. apply IZR_le. lia. }
  destruct (Rlt_dec f (1 / 2)) as [Hlt | Hge].
  - split; [lia |]. split; [intros ->; lia |].
    intros H. exfalso. destruct (Z.eq_dec j 11) as [E | NE].
    + rewrite (Hj11 E) in Hsum. lra.
    + specialize (Hjle NE). lra.
  - destruct (Rlt_dec (1 / 2) f) as [Hgt | Hle].
    + split; [lia |]. split.
      * intros H. assert (E : j = 11%Z) by lia.
        rewrite (Hj11 E) in Hsum. lra.
      * intros H. destruct (Z.eq_dec j 11) as [E | NE]; [lia |].
        specialize (Hjle NE). lra.
    + assert (Hf : f = 1 / 2) by lra.
      destruct (Z.even j) eqn:Hev.
      * split; [lia |]. split; [intros ->; lia |].
        intros H. exfalso. destruct (Z.eq_dec j 11) as [E | NE].
        -- subst j. rewrite E in Hev. discriminate Hev.
        -- specialize (Hjle NE). lra.
      * split; [lia |]. split.
        -- intros H. assert (E : j = 11%Z) by lia.
           rewrite (Hj11 E) in Hsum. lra.
        -- intros H. destruct (Z.eq_dec j 11) as [E | NE]; [lia |].
           specialize (Hjle NE). lra.
Qed.

Lemma duration_years_and_months_witness :
  0 <= 18
  /\ duration_years 18 = Int_part (18 / 12)
  /\ (0 <= duration_months 18 <= 12)%Z.
Proof.
  split; [lra |].
  destruct (duration_years_and_months 18) as (H1 & _ & _ & _ & H2 & _);
    [lra |].
  split; [exact H1 | exact H2].
Defined.

(** X15. The block for deposits stopping ten years early rounds the years
    where the first list takes whole years: for a finite duration [d >= 0],
    when the months part is below 6 the two years figures agree, and when it
    is above 6 the block shows one year more, next to the same months. *)
Theorem duration_years_disagree :
  forall d : R,
    0 <= d ->
    let months := remainder (d / 12) 1 * 12 in
    (months < 6 -> duration_years_10_years_less d = duration_years d)
    /\ (6 < months ->
        duration_years_10_years_less d = (duration_years d + 1)%Z).
Proof.
  intros d Hd months.
  assert (Hy : duration_years d = Int_part (d / 12)).
  { unfold duration_years, floor_divide. apply format_0f_whole. }
  assert (Hm : months = frac_part (d / 12) * 12).
  { unfold months. rewrite remainder_one. reflexivity. }
  rewrite Hy. unfold duration_years_10_years_less, format_0f.
  split; intros H.
  - destruct (Rlt_dec (frac_part (d / 12)) (1 / 2)) as [_ | N];
      [reflexivity | exfalso; lra].
  - destruct (Rlt_dec (frac_part (d / 12)) (1 / 2)) as [L | _]; [lra |].
    destruct (Rlt_dec (1 / 2) (frac_part (d / 12))) as [_ | N];
      [reflexivity | exfalso; lra].
Qed.

Lemma duration_years_disagree_witness :
  0 <= 20
  /\ 6 < remainder (20 / 12) 1 * 12
  /\ duration_years_10_years_less 20 = (duration_years 20 + 1)%Z.
Proof.
  assert (Hm : 6 < remainder (20 / 12) 1 * 12).
  { unfold remainder.
    replace (Int_part (20 / 12 / 1)) with 1%Z
      by (apply Int_part_spec; lra).
    lra. }
  split; [lra |]. split; [exact Hm |].
  apply (proj2 (duration_years_disagree 20 ltac:(lra))). exact Hm.
Defined.

(** ** Warnings *)

(** X17. The warning about the yearly LISA limit is given exactly when LISAs
    are included and the deposit is at least 334; the amount it proposes for
    a second run of the calculator is then at least 1, the smallest deposit
    the calculator accepts. *)
Theorem lisa_limit_warning_cases :
  forall (include_lisa : bool) (monthly_deposit : Z),
    (lisa_limit_warning include_lisa monthly_deposit = true
     <-> include_lisa = true /\ (334 <= monthly_deposit)%Z)
    /\ (lisa_limit_warning include_lisa monthly_deposit = true ->
        (1 <= lisa_limit_remaining monthly_deposit)%Z
        /\ (333 + lisa_limit_remaining monthly_deposit = monthly_deposit)%Z).
Proof.
  intros il md.
  assert (H : lisa_limit_warning il md = true
              <-> il = true /\ (334 <= md)%Z).
  { unfold lisa_limit_warning.
    destruct (Rlt_dec 333.33 (IZR md)) as [Hlt | Hge]; destruct il; cbn;
      split; try (intros [? ?]); try (intros ?); try discriminate;
      try (split; [reflexivity |]).
    - assert (H333 : (333 < md)%Z) by (apply lt_IZR; lra). lia.
    - reflexivity.
    - exfalso. apply Hge. apply IZR_le in H0. lra. }
  split; [exact H |].
  intros Hw. apply H in Hw as [_ Hmd].
  unfold lisa_limit_remaining. lia.
Qed.

Lemma lisa_limit_warning_cases_witness :
  lisa_limit_warning true 334 = true
  /\ (1 <= lisa_limit_remaining 334)%Z.
Proof.
  assert (H : lisa_limit_warning true 334 = true).
  { apply (proj1 (lisa_limit_warning_cases true 334)). split; [reflexivity | lia]. }
  split; [exact H |].
  apply (proj2 (lisa_limit_warning_cases true 334) H).
Defined.

(** ** The explanations and the per-vehicle tables *)

(** X18. In the pension table every accumulation row reconciles: the pension
    deposit is what the saver gives up plus the tax relief, plus the NI relief
    when the pension is a salary-sacrifice one, which is exactly when the NI
    relief column is displayed.  Every drawdown row reconciles too: the net
    take home is the withdrawal minus the tax paid, and the NI relief is 0. *)
Theorem pension_table_reconciles :
  forall (monthly_deposit : Z) (salary_sacrifice : YesNo)
         (current_tax retirement_tax : TaxBand) (retirement_age : Z)
         (growth_rate : R) (retirement_monthly_withdrawal : Z)
         (retirement_growth_rate : R) (retirement_duration : Z),
    (forall r,
        In r (pension_accumulation_df monthly_deposit salary_sacrifice
                current_tax retirement_age growth_rate) ->
        P_Pension_deposit r
        = - P_Net_take_home r + Tax_relief r
          + match salary_sacrifice with Yes => NI_relief r | No => 0 end)
    /\ (forall r,
           In r (pension_drawdown_df monthly_deposit salary_sacrifice
                   current_tax retirement_tax retirement_age growth_rate
                   retirement_monthly_withdrawal retirement_growth_rate
                   retirement_duration) ->
           NI_relief r = 0
           /\ P_Net_take_home r = - P_Pension_deposit r + Tax_relief r)
    /\ (forall show_pension_growth,
           In col_NI_relief
              (pension_columns_to_show salary_sacrifice show_pension_growth)
           <-> salary_sacrifice = Yes).
Proof.
  intros md ss ct rt ra g w rg rd.
  split; [| split].
  - intros r Hr. unfold pension_accumulation_df in Hr.
    apply in_map_iff in Hr as (row & <- & Hrow).
    rewrite accumulation_df_indexed in Hrow.
    apply In_map_seq in Hrow as (k & _ & ->).
    cbn [P_Pension_deposit P_Net_take_home Tax_relief NI_relief
         Pension_deposit Net_take_home mk_row].
    unfold current_tax_const, pension_monthly_net_deposit,
      brt_tax_rate, brt_ni_rate, hrt_tax_rate, hrt_ni_rate.
    destruct ct, ss; cbn [TaxBand_eqb YesNo_eqb andb fst snd]; lra.
  - intros r Hr. unfold pension_drawdown_df, drawdown_df in Hr.
    apply in_map_iff in Hr as (row & <- & Hrow).
    rewrite drawdown_frame_indexed in Hrow.
    apply In_map_seq in Hrow as (k & _ & ->).
    cbn [P_Pension_deposit P_Net_take_home Tax_relief NI_relief
         Pension_deposit Net_take_home mk_row].
    split; [reflexivity |].
    unfold retirement_tax_const, pension_monthly_net_withdrawal,
      brt_tax_rate, hrt_tax_rate.
    destruct rt; cbn [TaxBand_eqb]; lra.
  - intros show. unfold pension_columns_to_show, insert_at.
    destruct ss, show; cbn; split; intros H;
      try reflexivity; try discriminate;
      try (repeat (destruct H as [H | H]; try discriminate H); contradiction);
      tauto.
Qed.

(** X19. In every row of the LISA table the LISA deposit is the bonus minus
    the net take home.  The rows up to month [retirement_age * 12] are the
    accumulation rows: their bonus is a quarter of the monthly deposit and
    their net take home is the negated deposit.  The rows after that month are
    the drawdown rows: their bonus is 0 and their net take home is the
    withdrawal. *)
Theorem lisa_table_reconciles :
  forall (monthly_deposit : Z) (salary_sacrifice : YesNo)
         (current_tax retirement_tax : TaxBand) (retirement_age : Z)
         (growth_rate : R) (retirement_monthly_withdrawal : Z)
         (retirement_growth_rate : R) (retirement_duration : Z) (r : LisaRow),
    In r (lisa_schedule_df monthly_deposit salary_sacrifice current_tax
            retirement_tax retirement_age growth_rate
            retirement_monthly_withdrawal retirement_growth_rate
            retirement_duration) ->
    L_LISA_deposit r = LISA_bonus r - L_Net_take_home r
    /\ ((L_Month r <= retirement_age * 12)%Z ->
        LISA_bonus r = 0.25 * IZR monthly_deposit
        /\ L_Net_take_home r = - IZR monthly_deposit)
    /\ ((retirement_age * 12 < L_Month r)%Z ->
        LISA_bonus r = 0
        /\ L_Net_take_home r = IZR retirement_monthly_withdrawal).
Proof.
  intros md ss ct rt ra g w rg rd r Hr.
  unfold lisa_schedule_df in Hr. apply in_app_iff in Hr as [Hr | Hr].
  - apply in_map_iff in Hr as (row & <- & Hrow).
    rewrite accumulation_df_indexed in Hrow.
    apply In_map_seq in Hrow as (k & Hk & ->).
    cbn [L_LISA_deposit LISA_bonus L_Net_take_home L_Month LISA_deposit
         Net_take_home Month mk_row].
    unfold lisa_monthly_deposit.
    split; [lra |]. split.
    + intros _. split; lra.
    + intros Hm. exfalso. lia.
  - unfold drawdown_df in Hr.
    apply in_map_iff in Hr as (row & <- & Hrow).
    rewrite drawdown_frame_indexed in Hrow.
    apply In_map_seq in Hrow as (k & Hk & ->).
    cbn [L_LISA_deposit LISA_bonus L_Net_take_home L_Month LISA_deposit
         Net_take_home Month mk_row].
    split; [lra |]. split.
    + intros Hm. exfalso. lia.
    + intros _. split; reflexivity.
Qed.

Lemma lisa_table_reconciles_witness :
  exists r,
    In r (lisa_schedule_df 200 No BRT BRT 1 5 200 5 1)
    /\ (L_Month r <= 1 * 12)%Z
    /\ LISA_bonus r = 0.25 * IZR 200
    /\ L_Net_take_home r = - IZR 200.
Proof.
  eexists. split; [left; reflexivity |].
  split; [cbn; lia |].
  apply (proj1 (proj2 (lisa_table_reconciles 200 No BRT BRT 1 5 200 5 1 _
                         ltac:(left; reflexivity)))).
  cbn. lia.
Defined.

(** X20. The figures of the explanations add up.  Of a pension withdrawal,
    the tax-free quarter and the taxable three quarters make up the
    withdrawal, the tax taken and the amount after tax make up the taxable
    part, and the tax-free part plus the amount after tax is the desired net
    withdrawal.  For a salary-sacrifice pension, the gross pay less income tax
    and national insurance is the net deposit. *)
Theorem explanations_add_up :
  forall (monthly_deposit : Z) (current_tax retirement_tax : TaxBand)
         (retirement_monthly_withdrawal : Z),
    let ws := withdrawal_split retirement_tax retirement_monthly_withdrawal in
    let ss := sacrifice_split monthly_deposit Yes current_tax in
    tax_free ws + taxable ws = withdrawn ws
    /\ tax_taken ws + after_tax ws = taxable ws
    /\ tax_free ws + after_tax ws = net_take_home ws
    /\ gross_pay ss - income_tax ss - national_insurance ss = net_income ss.
Proof.
  intros md ct rt w ws ss.
  unfold ws, ss, withdrawal_split, sacrifice_split, retirement_tax_const,
    current_tax_const, pension_monthly_net_withdrawal,
    pension_monthly_net_deposit,
    brt_tax_rate, brt_ni_rate, hrt_tax_rate, hrt_ni_rate.
  cbn [withdrawn tax_free taxable tax_taken after_tax net_take_home
       gross_pay income_tax national_insurance net_income].
  destruct rt, ct; cbn [TaxBand_eqb YesNo_eqb andb fst snd];
    repeat split; lra.
Qed.

(** X21. For a pension without salary sacrifice: a higher-rate payer is told
    that a quarter of the deposit is added automatically and that 5/12 of the
    deposit has to be reclaimed, and the two with the deposit make up the
    gross pension deposit; a basic-rate payer gets no such warning, and
    nothing would be left to reclaim. *)
Theorem sipp_reclaim_cases :
  forall monthly_deposit : Z,
    sipp_reclaim monthly_deposit No HRT
    = Some (IZR monthly_deposit * 0.25,
            pension_monthly_net_deposit monthly_deposit No HRT
            - IZR monthly_deposit - IZR monthly_deposit * 0.25)
    /\ pension_monthly_net_deposit monthly_deposit No HRT
       - IZR monthly_deposit - IZR monthly_deposit * 0.25
       = IZR monthly_deposit * (5 / 12)
    /\ sipp_reclaim monthly_deposit No BRT = None
    /\ pension_monthly_net_deposit monthly_deposit No BRT
       - IZR monthly_deposit - IZR monthly_deposit * 0.25 = 0.
Proof.
  intros md.
  unfold sipp_reclaim, pension_monthly_net_deposit,
    brt_tax_rate, hrt_tax_rate.
  cbn [TaxBand_eqb YesNo_eqb andb].
  split; [reflexivity |]. split; [lra |]. split; [reflexivity | lra].
Qed.

(** X22. In the standard schedule the balance of a row is the balance of the
    row before, plus the month returns shown on the row before, plus the
    deposit of the row, whenever the two rows have the same growth rate; in
    general the difference is the previous balance times the change of the
    monthly rate, which is the case at the first drawdown row. *)
Theorem month_returns_carry_over :
  forall (monthly_deposit : Z) (salary_sacrifice : YesNo)
         (current_tax retirement_tax : TaxBand) (retirement_age : Z)
         (growth_rate : R) (retirement_monthly_withdrawal : Z)
         (retirement_growth_rate : R) (retirement_duration : Z)
         (v : Vehicle) (k : nat) (prev cur : Row),
    nth_error
      (schedule_df monthly_deposit salary_sacrifice current_tax
         retirement_tax retirement_age growth_rate
         retirement_monthly_withdrawal retirement_growth_rate
         retirement_duration) k = Some prev ->
    nth_error
      (schedule_df monthly_deposit salary_sacrifice current_tax
         retirement_tax retirement_age growth_rate
         retirement_monthly_withdrawal retirement_growth_rate
         retirement_duration) (S k) = Some cur ->
    fund_of v cur
    = fund_of v prev + fund_month_returns v prev + deposit_of v cur
      + fund_of v prev * (Growth cur - Growth prev) / 100 / 12.
Proof.
  intros md ss ct rt ra g w rg rd v k prev cur Hp Hc.
  pose proof (schedule_df_chained md ss ct rt ra g w rg rd v k prev cur Hp Hc)
    as H.
  unfold follows in H. rewrite H. unfold fund_month_returns. field.
Qed.

Lemma month_returns_carry_over_witness :
  exists prev cur,
    nth_error (schedule_df 200 No BRT BRT 1 5 200 3 1) 11 = Some prev
    /\ nth_error (schedule_df 200 No BRT BRT 1 5 200 3 1) 12 = Some cur
    /\ fund_of ISA cur
       = fund_of ISA prev + fund_month_returns ISA prev + deposit_of ISA cur
         + fund_of ISA prev * (Growth cur - Growth prev) / 100 / 12.
Proof.
  eexists. eexists.
  split; [reflexivity |]. split; [reflexivity |].
  apply (month_returns_carry_over 200 No BRT BRT 1 5 200 3 1 ISA 11);
    reflexivity.
Defined.

Lemma pension_table_reconciles_witness :
  exists r,
    In r (pension_accumulation_df 200 Yes HRT 1 5)
    /\ P_Pension_deposit r = - P_Net_take_home r + Tax_relief r + NI_relief r.
Proof.
  eexists. split; [left; reflexivity |].
  apply (proj1 (pension_table_reconciles 200 Yes HRT BRT 1 5 200 5 1)).
  left. reflexivity.
Defined.

(** X24. With non-negative deposit and growth rates, more than 10 years to
    retirement and at least one year of drawdown, stopping the deposits ten
    years early never raises the fixed-duration payment of a vehicle: both
    payments are numbers, and the one after the shortened contribution phase
    is at most the one after the full phase. *)
Theorem truncated_pmt_le_full :
  forall (monthly_deposit : Z) (salary_sacrifice : YesNo)
         (current_tax retirement_tax : TaxBand) (retirement_age : Z)
         (growth_rate : R) (retirement_growth_rate : R)
         (retirement_duration : Z) (v : Vehicle),
    (0 <= monthly_deposit)%Z -> 0 <= growth_rate ->
    (10 < retirement_age)%Z ->
    0 <= retirement_growth_rate -> (1 <= retirement_duration)%Z ->
    exists p p',
      nth (idx v)
          (retirement_withdrawal_pmt_10_years_less monthly_deposit
             salary_sacrifice current_tax retirement_tax retirement_age
             growth_rate retirement_growth_rate retirement_duration) NaN
      = Fin p
      /\ nth (idx v)
             (retirement_withdrawal_pmt monthly_deposit salary_sacrifice
                current_tax retirement_tax retirement_age growth_rate
                retirement_growth_rate retirement_duration) NaN
         = Fin p'
      /\ p <= p'.
Proof.
  intros md ss ct rt ra g rg rd v Hmd Hg Hra Hrg Hrd.
  destruct (pmt_proportional (rg / 100 / 12) (rd * 12)) as (k & Hk0 & Hk);
    [lra | lia |].
  assert (Hle : nth (idx v)
                    (retirement_fvs_10_years_less_at_age md ss ct ra g) 0
                <= nth (idx v) (retirement_fvs md ss ct ra g) 0).
  { rewrite fvs_less_at_age_nth, fvs_less_nth, fvs_nth, growth_only_closed.
    replace (10 * 12)%Z with (Z.of_nat 120) by reflexivity.
    replace (ra * 12)%Z with ((ra - 10) * 12 + Z.of_nat 120)%Z by lia.
    apply balance_growth_le; [lra | | lia].
    apply deposits_nonneg. exact Hmd. }
  assert (Hkeep : 0 < 1 - 0.75 * retirement_tax_const rt).
  { unfold retirement_tax_const, brt_tax_rate, hrt_tax_rate.
    destruct rt; cbn [TaxBand_eqb]; lra. }
  assert (Htax : forall x,
             pension_after_tax rt (Fin x)
             = Fin (x * (1 - 0.75 * retirement_tax_const rt))).
  { intros x. unfold pension_after_tax, retirement_tax_const,
      brt_tax_rate, hrt_tax_rate.
    destruct rt; cbn [TaxBand_eqb]; apply f_equal; lra. }
  unfold retirement_withdrawal_pmt_10_years_less, retirement_withdrawal_pmt,
    withdrawal_pmt.
  unfold retirement_fvs_10_years_less_at_age, retirement_fvs_10_years_less,
    retirement_fvs, monthly_deposits in Hle |- *.
  cbn [map] in Hle |- *.
  destruct v; cbn [idx nth] in Hle |- *;
    rewrite ?(proj1 (Hk _)), ?Htax;
    eexists; eexists; (split; [reflexivity |]); (split; [reflexivity |]);
    repeat (apply Rmult_le_compat_r; [lra |]); exact Hle.
Qed.

Lemma truncated_pmt_le_full_witness :
  (0 <= 200)%Z /\ 0 <= 5 /\ (10 < 20)%Z /\ 0 <= 5 /\ (1 <= 20)%Z
  /\ exists p p',
      nth (idx LISA)
          (retirement_withdrawal_pmt_10_years_less 200 No BRT BRT 20 5 5 20)
          NaN = Fin p
      /\ nth (idx LISA) (retirement_withdrawal_pmt 200 No BRT BRT 20 5 5 20)
             NaN = Fin p'
      /\ p <= p'.
Proof.
  split; [lia |]. split; [lra |]. split; [lia |]. split; [lra |].
  split; [lia |].
  apply (truncated_pmt_le_full 200 No BRT BRT 20 5 5 20 LISA);
    [lia | lra | lia | lra | lia].
Defined.
